(** * Customer Service MCP App: the configuration-driven ticket pipeline

    A shallow embedding of [config.ts] (types, [defaultConfig],
    [createConfig]) and of [server.ts] ([buildEmailBody],
    [sendSupportEmail], [buildInputSchema] and the handler of the
    [customer_support] tool), followed by the properties of the
    specification that concern them.

    Conventions.
    - A JavaScript string is a [string]; the operations used by the
      program (search, concatenation, [replace], [join]) do not depend on
      the width of a code unit.
    - An object used as a dictionary ([Record<string, string>], the zod
      shape) is a [gmap string _] of its own properties; a read under a
      computed key also finds the members every object inherits
      ([getProperty]).
    - [undefined] is [None]; a property of a partial object is
      [Missing], [Undefined] or [Has v].
    - Effects are explicit: a computation yields the sequence of events
      it performed (console lines, mail submissions) and either a value or
      the value it threw. *)

From Stdlib Require Import ZArith String Ascii List Bool Lia.
From stdpp Require Import base option gmap strings list fin_maps.

(** String literals and [+:+] (concatenation) come with stdpp's [strings];
    [++] remains the append of lists. *)

(* ===================================================================== *)
(** * JavaScript strings *)
(* ===================================================================== *)

Module JsString.

(** The line terminator written ["\n"] in the source. *)
Definition LF : string := String (ascii_of_nat 10) EmptyString.

(** [s.startsWith(p)]. *)
Fixpoint startsWith (p s : string) : bool :=
  match p, s with
  | EmptyString, _ => true
  | String a p', String b s' => if Ascii.eqb a b then startsWith p' s' else false
  | String _ _, EmptyString => false
  end.

(** [StringIndexOf(s, searchValue, 0)] counted from [from]: the least
    position at which [searchValue] occurs, [None] for the sentinel -1. *)
Fixpoint indexOfFrom (searchValue s : string) (from : nat) : option nat :=
  if startsWith searchValue s then Some from
  else match s with
       | EmptyString => None
       | String _ s' => indexOfFrom searchValue s' (S from)
       end.

Definition indexOf (searchValue s : string) : option nat :=
  indexOfFrom searchValue s 0.

(** [s.includes(sub)]. *)
Definition includes (s sub : string) : bool :=
  match indexOf sub s with Some _ => true | None => false end.

(** [s.substring(0, n)] and [s.substring(n)]. *)
Fixpoint take (n : nat) (s : string) : string :=
  match n, s with
  | S n', String c s' => String c (take n' s')
  | _, _ => EmptyString
  end.

Fixpoint drop (n : nat) (s : string) : string :=
  match n, s with
  | S n', String _ s' => drop n' s'
  | _, _ => s
  end.

Definition isChar (c : ascii) (lit : string) : bool :=
  match lit with
  | String d EmptyString => Ascii.eqb c d
  | _ => false
  end.

(** [GetSubstitution(matched, str, position, captures = [], namedCaptures
    = undefined, replacementTemplate)] of ECMA-262, as reached from
    [String.prototype.replace] with a string pattern: [$$] stands for a
    dollar sign, [$&] for the match, [$`] for the text before it and [$']
    for the text after it.  With no capture groups a [$] followed by
    digits or by [<] is copied as it stands, like any other character. *)
Fixpoint getSubstitution (matched str : string) (position : nat)
         (replacementTemplate : string) : string :=
  match replacementTemplate with
  | EmptyString => EmptyString
  | String c rest =>
      if isChar c "$" then
        match rest with
        | String d rest' =>
            if isChar d "$" then String c (getSubstitution matched str position rest')
            else if isChar d "`" then
              take position str +:+ getSubstitution matched str position rest'
            else if isChar d "&" then
              matched +:+ getSubstitution matched str position rest'
            else if isChar d "'" then
              drop (position + String.length matched) str
                +:+ getSubstitution matched str position rest'
            else String c (getSubstitution matched str position rest)
        | EmptyString => String c EmptyString
        end
      else String c (getSubstitution matched str position rest)
  end.

(** [s.replace(searchValue, replaceValue)] for a string [searchValue]
    and a string [replaceValue]: only the first occurrence is rewritten. *)
Definition replace (s searchValue replaceValue : string) : string :=
  match indexOf searchValue s with
  | None => s
  | Some pos =>
      let preceding := take pos s in
      let following := drop (pos + String.length searchValue) s in
      preceding
        +:+ getSubstitution searchValue s pos replaceValue
        +:+ following
  end.

(** [lines.join(separator)]. *)
Fixpoint join (separator : string) (lines : list string) : string :=
  match lines with
  | [] => EmptyString
  | [x] => x
  | x :: rest => x +:+ separator +:+ join separator rest
  end.

(** [ToString(v)] for a value that is a string or [undefined]; this is
    what a template literal and [replace] apply to their argument. *)
Definition toString (v : option string) : string :=
  match v with
  | Some s => s
  | None => "undefined"
  end.

(** Truthiness of a value that is a string or [undefined]. *)
Definition truthy (v : option string) : bool :=
  match v with
  | Some EmptyString => false
  | Some _ => true
  | None => false
  end.

End JsString.


(* ===================================================================== *)
(** * Data model ([config.ts]) *)
(* ===================================================================== *)

(** A JavaScript number as far as this program meets one: the SMTP port,
    which is an integer or the [NaN] that [parseInt] yields. *)
Inductive number : Type :=
| NaN
| Num (z : Z).

(** [type: "text" | "email" | "tel" | "textarea" | "select"]. *)
Inductive FieldType : Type :=
| text_ | email_ | tel_ | textarea_ | select_.

Record FieldConfig : Type := mkField {
  key : string;
  label : string;
  type : FieldType;
  placeholder : string;
  required : bool;
  options : option (list string)
}.

Record BrandConfig : Type := mkBrand {
  name : string;
  primaryColor : string;
  secondaryColor : string;
  logoUrl : option string;
  tagline : string
}.

(** The credential pair.  The interface declares both halves as strings;
    they are kept optional here because the dispatcher tests them for
    truthiness, which also covers a half that was never set. *)
Record SmtpAuth : Type := mkAuth {
  user : option string;
  pass : option string
}.

Record SmtpConfig : Type := mkSmtp {
  host : string;
  port : number;
  secure : bool;
  auth : SmtpAuth
}.

Record AppConfig : Type := mkConfig {
  brand : BrandConfig;
  smtp : SmtpConfig;
  supportEmail : string;
  emailSubjectTemplate : string;
  customFields : list FieldConfig;
  priorities : list string;
  categories : list string
}.

(* ===================================================================== *)
(** * Partial objects and the Config Resolver *)
(* ===================================================================== *)

(** One property of an object literal: not written at all, written with
    the value [undefined], or written with a value. *)
Inductive prop (A : Type) : Type :=
| Missing
| Undefined
| Has (v : A).
Arguments Missing {A}.
Arguments Undefined {A}.
Arguments Has {A} v.

(** Reading [o.k]. *)
Definition get {A} (p : prop A) : option A :=
  match p with
  | Has v => Some v
  | Missing | Undefined => None
  end.

(** One key of [{ ...a, ...b }]: the later object wins whenever it owns
    the key, whatever the value. *)
Definition spread {A} (a b : prop A) : prop A :=
  match b with
  | Missing => a
  | Undefined | Has _ => b
  end.

(** [a ?? b]. *)
Definition nullish {A} (a b : option A) : option A :=
  match a with
  | Some v => Some v
  | None => b
  end.

(** An explicitly written property [k: e] of an object literal. *)
Definition written {A} (e : option A) : prop A :=
  match e with
  | Some v => Has v
  | None => Undefined
  end.

(** The objects the resolver handles at run time: every level of
    [Partial<AppConfig>] with each property possibly absent. *)
Module Partial.

Record SmtpAuth : Type := mkAuth {
  user : prop string;
  pass : prop string
}.

Record SmtpConfig : Type := mkSmtp {
  host : prop string;
  port : prop number;
  secure : prop bool;
  auth : prop SmtpAuth
}.

Record BrandConfig : Type := mkBrand {
  name : prop string;
  primaryColor : prop string;
  secondaryColor : prop string;
  logoUrl : prop string;
  tagline : prop string
}.

Record AppConfig : Type := mkConfig {
  brand : prop BrandConfig;
  smtp : prop SmtpConfig;
  supportEmail : prop string;
  emailSubjectTemplate : prop string;
  customFields : prop (list FieldConfig);
  priorities : prop (list string);
  categories : prop (list string)
}.

(** [{}], the default value of the parameter [overrides]. *)
Definition emptyBrand : BrandConfig := mkBrand Missing Missing Missing Missing Missing.
Definition emptyAuth : SmtpAuth := mkAuth Missing Missing.
Definition emptySmtp : SmtpConfig := mkSmtp Missing Missing Missing Missing.
Definition empty : AppConfig :=
  mkConfig Missing Missing Missing Missing Missing Missing Missing.

(** [{ ...a, ...b }] for each object shape; spreading [undefined]
    contributes nothing. *)
Definition spreadAuth (a : SmtpAuth) (b : option SmtpAuth) : SmtpAuth :=
  match b with
  | None => a
  | Some b => mkAuth (spread (user a) (user b)) (spread (pass a) (pass b))
  end.

Definition spreadSmtp (a : SmtpConfig) (b : option SmtpConfig) : SmtpConfig :=
  match b with
  | None => a
  | Some b =>
      mkSmtp (spread (host a) (host b)) (spread (port a) (port b))
             (spread (secure a) (secure b)) (spread (auth a) (auth b))
  end.

Definition spreadBrand (a : BrandConfig) (b : option BrandConfig) : BrandConfig :=
  match b with
  | None => a
  | Some b =>
      mkBrand (spread (name a) (name b))
              (spread (primaryColor a) (primaryColor b))
              (spread (secondaryColor a) (secondaryColor b))
              (spread (logoUrl a) (logoUrl b))
              (spread (tagline a) (tagline b))
  end.

Definition spreadConfig (a b : AppConfig) : AppConfig :=
  mkConfig (spread (brand a) (brand b)) (spread (smtp a) (smtp b))
           (spread (supportEmail a) (supportEmail b))
           (spread (emailSubjectTemplate a) (emailSubjectTemplate b))
           (spread (customFields a) (customFields b))
           (spread (priorities a) (priorities b))
           (spread (categories a) (categories b)).

End Partial.

Section ConfigResolver.

(** [process.env] and the built-in [parseInt(_, 10)], both read once when
    the module is loaded. *)
Variable env : gmap string string.
Variable parseInt10 : string -> number.

Definition orElse (v : option string) (fallback : string) : string :=
  match v with
  | Some s => s
  | None => fallback
  end.

Definition defaultBrand : Partial.BrandConfig :=
  {| Partial.name := Has "Customer Support";
     Partial.primaryColor := Has "#2563eb";
     Partial.secondaryColor := Has "#1e40af";
     Partial.logoUrl := Missing;
     Partial.tagline := Has "We're here to help" |}.

Definition defaultAuth : Partial.SmtpAuth :=
  {| Partial.user := Has (orElse (env !! "SMTP_USER") EmptyString);
     Partial.pass := Has (orElse (env !! "SMTP_PASS") EmptyString) |}.

Definition defaultSmtp : Partial.SmtpConfig :=
  {| Partial.host := Has (orElse (env !! "SMTP_HOST") "smtp.gmail.com");
     Partial.port := Has (parseInt10 (orElse (env !! "SMTP_PORT") "587"));
     Partial.secure :=
       Has (match env !! "SMTP_SECURE" with
            | Some s => String.eqb s "true"
            | None => false
            end);
     Partial.auth := Has defaultAuth |}.

Definition defaultCustomFields : list FieldConfig :=
  [ {| key := "email"; label := "Email Address"; type := email_;
       placeholder := "you@example.com"; required := false;
       options := None |} ].

Definition defaultPriorities : list string := ["Low"; "Medium"; "High"; "Urgent"].

Definition defaultCategories : list string :=
  ["General Inquiry"; "Technical Support"; "Billing"; "Feature Request";
   "Bug Report"].

Definition defaultConfig : Partial.AppConfig :=
  {| Partial.brand := Has defaultBrand;
     Partial.smtp := Has defaultSmtp;
     Partial.supportEmail := Has (orElse (env !! "SUPPORT_EMAIL") "support@example.com");
     Partial.emailSubjectTemplate := Has "Support Request from {{name}}: {{issue}}";
     Partial.customFields := Has defaultCustomFields;
     Partial.priorities := Has defaultPriorities;
     Partial.categories := Has defaultCategories |}.

(** [createConfig(overrides = {})].  The literal first spreads the default
    and the override, then writes the five keys [brand], [smtp],
    [customFields], [priorities] and [categories] explicitly. *)
Definition createConfig (overrides : Partial.AppConfig) : Partial.AppConfig :=
  let merged := Partial.spreadConfig defaultConfig overrides in
  let overrides_smtp := get (Partial.smtp overrides) in
  let smtp' := Partial.spreadSmtp defaultSmtp overrides_smtp in
  {| Partial.brand :=
       Has (Partial.spreadBrand defaultBrand (get (Partial.brand overrides)));
     Partial.smtp :=
       Has {| Partial.host := Partial.host smtp';
              Partial.port := Partial.port smtp';
              Partial.secure := Partial.secure smtp';
              Partial.auth :=
                Has (Partial.spreadAuth defaultAuth
                       (overrides_smtp ≫= fun s => get (Partial.auth s))) |};
     Partial.supportEmail := Partial.supportEmail merged;
     Partial.emailSubjectTemplate := Partial.emailSubjectTemplate merged;
     Partial.customFields :=
       written (nullish (get (Partial.customFields overrides))
                        (get (Partial.customFields defaultConfig)));
     Partial.priorities :=
       written (nullish (get (Partial.priorities overrides))
                        (get (Partial.priorities defaultConfig)));
     Partial.categories :=
       written (nullish (get (Partial.categories overrides))
                        (get (Partial.categories defaultConfig))) |}.

End ConfigResolver.

(** The view of a merged object as a value of the declared interface:
    defined when every property the interface requires holds a value.
    Consumers of the configuration are written against the interface. *)
Definition asAuth (a : Partial.SmtpAuth) : SmtpAuth :=
  {| user := get (Partial.user a); pass := get (Partial.pass a) |}.

Definition asSmtp (s : Partial.SmtpConfig) : option SmtpConfig :=
  h ← get (Partial.host s);
  p ← get (Partial.port s);
  sec ← get (Partial.secure s);
  a ← get (Partial.auth s);
  Some {| host := h; port := p; secure := sec; auth := asAuth a |}.

Definition asBrand (b : Partial.BrandConfig) : option BrandConfig :=
  n ← get (Partial.name b);
  c1 ← get (Partial.primaryColor b);
  c2 ← get (Partial.secondaryColor b);
  t ← get (Partial.tagline b);
  Some {| name := n; primaryColor := c1; secondaryColor := c2;
          logoUrl := get (Partial.logoUrl b); tagline := t |}.

Definition asAppConfig (c : Partial.AppConfig) : option AppConfig :=
  b ← get (Partial.brand c) ≫= asBrand;
  s ← get (Partial.smtp c) ≫= asSmtp;
  e ← get (Partial.supportEmail c);
  t ← get (Partial.emailSubjectTemplate c);
  fs ← get (Partial.customFields c);
  ps ← get (Partial.priorities c);
  cs ← get (Partial.categories c);
  Some {| brand := b; smtp := s; supportEmail := e; emailSubjectTemplate := t;
          customFields := fs; priorities := ps; categories := cs |}.

(* ===================================================================== *)
(** * Effects: console, mail transport, exceptions *)
(* ===================================================================== *)

(** The options handed to [nodemailer.createTransport]. *)
Record TransportOptions : Type := mkTransport {
  transportHost : string;
  transportPort : number;
  transportSecure : bool;
  transportAuth : SmtpAuth
}.

(** The message handed to [transporter.sendMail]. *)
Module Mail.
Record Options : Type := mk {
  from : option string;
  to : string;
  subject : string;
  text : string;
  replyTo : option string
}.
End Mail.

(** A thrown value: an instance of [Error] with its [message], or any
    other value, known by what [String(_)] makes of it. *)
Inductive Thrown : Type :=
| ErrorInstance (message : string)
| NonError (asString : string).

(** What the program does to the outside world, in order. *)
Inductive Event : Type :=
| ConsoleLog (line : string)
| SendMail (transport : TransportOptions) (mail : Mail.Options).

Inductive Completion (A : Type) : Type :=
| Returned (value : A)
| Threw (error : Thrown).
Arguments Returned {A} value.
Arguments Threw {A} error.

(** A computation: the events it performed and how it completed. *)
Definition M (A : Type) : Type := (list Event * Completion A)%type.

Definition ret {A} (a : A) : M A := ([], Returned a).

Definition bind {A B} (m : M A) (k : A -> M B) : M B :=
  match m with
  | (tr, Returned a) => let '(tr', c) := k a in (tr ++ tr', c)
  | (tr, Threw e) => (tr, Threw e)
  end.

(** [try { m } catch (error) { handler(error) }]. *)
Definition tryCatch {A} (m : M A) (handler : Thrown -> M A) : M A :=
  match m with
  | (tr, Returned a) => (tr, Returned a)
  | (tr, Threw e) => let '(tr', c) := handler e in (tr ++ tr', c)
  end.

(** The computations form a monad; stdpp's notations [x ← m; k] and
    [m;; k] sequence them. *)
#[export] Instance M_ret : MRet M := @ret.
#[export] Instance M_bind : MBind M := fun A B k m => bind m k.

Definition events {A} (m : M A) : list Event := fst m.
Definition completion {A} (m : M A) : Completion A := snd m.

(** [console.log(line)]. *)
Definition console_log (line : string) : M unit := ([ConsoleLog line], Returned tt).

(** The mail system as the program sees it: for the transport options and
    the message of a submission, either the promise of [sendMail]
    resolves ([None]) or it rejects with a value. *)
Definition Network : Type := TransportOptions -> Mail.Options -> option Thrown.

(** [await transporter.sendMail(mail)]. *)
Definition sendMail (network : Network) (transporter : TransportOptions)
           (mail : Mail.Options) : M unit :=
  ([SendMail transporter mail],
   match network transporter mail with
   | None => Returned tt
   | Some e => Threw e
   end).

(* ===================================================================== *)
(** * Ticket Composer ([server.ts]) *)
(* ===================================================================== *)

Import JsString.

(** [lines.push(...items)]. *)
Definition push (lines items : list string) : list string := lines ++ items.

(** The members every ordinary object inherits from [Object.prototype],
    each with the text a template literal makes of it: a built-in function
    as Node prints it, and for [__proto__] the prototype object itself.
    All of them are truthy. *)
Definition objectPrototypeMembers : list (string * string) :=
  [ ("constructor", "function Object() { [native code] }");
    ("__defineGetter__", "function __defineGetter__() { [native code] }");
    ("__defineSetter__", "function __defineSetter__() { [native code] }");
    ("hasOwnProperty", "function hasOwnProperty() { [native code] }");
    ("__lookupGetter__", "function __lookupGetter__() { [native code] }");
    ("__lookupSetter__", "function __lookupSetter__() { [native code] }");
    ("isPrototypeOf", "function isPrototypeOf() { [native code] }");
    ("propertyIsEnumerable", "function propertyIsEnumerable() { [native code] }");
    ("toString", "function toString() { [native code] }");
    ("valueOf", "function valueOf() { [native code] }");
    ("__proto__", "[object Object]");
    ("toLocaleString", "function toLocaleString() { [native code] }") ].

(** The member inherited under the key [k], if there is one. *)
Definition inherited (k : string) : option string :=
  snd <$> List.find (fun member => String.eqb (fst member) k) objectPrototypeMembers.

(** [fields[k]] for a computed key [k]: the own property when the input
    has one, else the member inherited under that key, else [undefined].
    The keys the program reads by name ([name], [issue], [priority],
    [category], [email]) are not inherited, so for them the read is the own
    property [fields !! k]. *)
Definition getProperty (fields : gmap string string) (k : string) : option string :=
  match fields !! k with
  | Some v => Some v
  | None => inherited k
  end.

(** One iteration of the loop over [config.customFields]. *)
Definition appendCustomField (fields : gmap string string)
           (lines : list string) (field : FieldConfig) : list string :=
  if truthy (getProperty fields (key field))
  then push lines [label field +:+ ": " +:+ toString (getProperty fields (key field))]
  else lines.

Definition buildEmailBody (fields : gmap string string) (config : AppConfig) : string :=
  let lines :=
    [ "New support ticket received via " +:+ name (brand config);
      EmptyString;
      "--- Ticket Details ---";
      EmptyString;
      "Name: " +:+ toString (fields !! "name");
      "Issue: " +:+ toString (fields !! "issue") ] in
  let lines :=
    if truthy (fields !! "priority")
    then push lines ["Priority: " +:+ toString (fields !! "priority")]
    else lines in
  let lines :=
    if truthy (fields !! "category")
    then push lines ["Category: " +:+ toString (fields !! "category")]
    else lines in
  let lines := fold_left (appendCustomField fields) (customFields config) lines in
  let lines := push lines [EmptyString; "--- End of Ticket ---"] in
  join LF lines.

(** The subject line.  The source writes this expression twice, once in
    each branch of [sendSupportEmail]:
    [config.emailSubjectTemplate.replace("{{name}}", fields.name)
       .replace("{{issue}}", fields.issue)]. *)
Definition subject (fields : gmap string string) (config : AppConfig) : string :=
  replace
    (replace (emailSubjectTemplate config) "{{name}}" (toString (fields !! "name")))
    "{{issue}}" (toString (fields !! "issue")).

(* ===================================================================== *)
(** * Delivery Dispatcher *)
(* ===================================================================== *)

Record Outcome : Type := mkOutcome {
  success : bool;
  message : string
}.

Definition recordedMessage : string :=
  "Ticket recorded (email preview logged — configure SMTP credentials to enable delivery).".

Definition sendSupportEmail (network : Network)
           (fields : gmap string string) (config : AppConfig) : M Outcome :=
  if negb (truthy (user (auth (smtp config))))
     || negb (truthy (pass (auth (smtp config))))
  then
    let body := buildEmailBody fields config in
    console_log "=== EMAIL PREVIEW (SMTP not configured) ===";;
    console_log ("To: " +:+ supportEmail config);;
    console_log ("Subject: " +:+ subject fields config);;
    console_log body;;
    console_log "============================================";;
    ret {| success := true; message := recordedMessage |}
  else
    let transporter :=
      {| transportHost := host (smtp config);
         transportPort := port (smtp config);
         transportSecure := secure (smtp config);
         transportAuth := auth (smtp config) |} in
    let subject := subject fields config in
    sendMail network transporter
      {| Mail.from := user (auth (smtp config));
         Mail.to := supportEmail config;
         Mail.subject := subject;
         Mail.text := buildEmailBody fields config;
         Mail.replyTo :=
           if truthy (fields !! "email") then fields !! "email" else None |};;
    ret {| success := true; message := "Support ticket sent successfully." |}.

(** Both halves of the credential pair are truthy: the negation of the
    test that opens [sendSupportEmail]. *)
Definition credentialsPresent (config : AppConfig) : bool :=
  truthy (user (auth (smtp config))) && truthy (pass (auth (smtp config))).

(* ===================================================================== *)
(** * Schema Builder *)
(* ===================================================================== *)

(** The two zod schema classes the shape may hold, each with the
    description set by [.describe(_)]. *)
Inductive ZodSchema : Type :=
| ZodString (description : option string)
| ZodOptional (innerType : ZodSchema) (description : option string).

Module z.

(** [z.string()]. *)
Definition string : ZodSchema := ZodString None.

Definition description (s : ZodSchema) : option String.string :=
  match s with
  | ZodString d => d
  | ZodOptional _ d => d
  end.

(** [s.describe(d)]: the same schema with its description set. *)
Definition describe (d : String.string) (s : ZodSchema) : ZodSchema :=
  match s with
  | ZodString _ => ZodString (Some d)
  | ZodOptional inner _ => ZodOptional inner (Some d)
  end.

(** [s.optional()]: a wrapper around [s], created with the description
    of [s]. *)
Definition optional (s : ZodSchema) : ZodSchema :=
  ZodOptional s (description s).

(** The description a reader of the schema finds for the key: the one of
    the schema, or else the one of the schema it wraps. *)
Fixpoint describedAs (s : ZodSchema) : option String.string :=
  match s with
  | ZodString d => d
  | ZodOptional inner d =>
      match d with
      | Some _ => d
      | None => describedAs inner
      end
  end.

(** Whether an object schema built from the shape demands the key. *)
Definition isRequired (s : ZodSchema) : bool :=
  match s with
  | ZodString _ => true
  | ZodOptional _ _ => false
  end.

(** The type of the values accepted, once optional wrappers are removed:
    every schema of this program bottoms out in [z.string()]. *)
Fixpoint isString (s : ZodSchema) : bool :=
  match s with
  | ZodString _ => true
  | ZodOptional inner _ => isString inner
  end.

End z.

(** One iteration of the loop over [config.customFields]:
    [shape[field.key] = field.required ? base : base.optional()].

    The map holds, for each key the program has assigned, the value that
    [shape[key]] reads afterwards.  For every key but one the assignment
    adds an own property.  The exception is [__proto__]: there the
    assignment installs the value as the prototype of the shape, from where
    the same read returns it, and no own property is added.  Statements
    about the set of keys of the shape are therefore made for
    configurations without a custom field keyed [__proto__]. *)
Definition addCustomField (shape : gmap string ZodSchema) (field : FieldConfig)
  : gmap string ZodSchema :=
  let base := z.describe (label field) z.string in
  <[ key field := if required field then base else z.optional base ]> shape.

Definition buildInputSchema (config : AppConfig) : gmap string ZodSchema :=
  let shape : gmap string ZodSchema :=
    <[ "category" :=
         z.describe ("Issue category (" +:+ join ", " (categories config) +:+ ")")
                    (z.optional z.string) ]>
    (<[ "priority" :=
         z.describe ("Ticket priority level (" +:+ join ", " (priorities config) +:+ ")")
                    (z.optional z.string) ]>
    (<[ "issue" := z.describe "Description of the customer's issue" z.string ]>
    (<[ "name" := z.describe "Full name of the customer" z.string ]> ∅))) in
  fold_left addCustomField (customFields config) shape.

(* ===================================================================== *)
(** * Ticket Endpoint: the handler of [customer_support] *)
(* ===================================================================== *)

#[local] Set Warnings "-register-all".

(** The values given to [JSON.stringify] by the handler. *)
Inductive JSON : Type :=
| JString (s : string)
| JObject (members : list (string * JSON)).

Module Json.

Definition hexDigit (n : nat) : ascii :=
  ascii_of_nat (if Nat.ltb n 10 then 48 + n else 87 + n).

Definition backslash : ascii := ascii_of_nat 92.
Definition quotationMark : ascii := ascii_of_nat 34.

(** The escape of one code unit in [QuoteJSONString]. *)
Definition escape (c : ascii) (rest : string) : string :=
  let n := nat_of_ascii c in
  if Nat.eqb n 8 then String backslash (String "b" rest)
  else if Nat.eqb n 9 then String backslash (String "t" rest)
  else if Nat.eqb n 10 then String backslash (String "n" rest)
  else if Nat.eqb n 12 then String backslash (String "f" rest)
  else if Nat.eqb n 13 then String backslash (String "r" rest)
  else if Nat.eqb n 34 then String backslash (String quotationMark rest)
  else if Nat.eqb n 92 then String backslash (String backslash rest)
  else if Nat.ltb n 32 then
    String backslash (String "u" (String "0" (String "0"
      (String (hexDigit (n / 16)) (String (hexDigit (n mod 16)) rest)))))
  else String c rest.

Fixpoint escapeAll (s : string) : string :=
  match s with
  | EmptyString => String quotationMark EmptyString
  | String c s' => escape c (escapeAll s')
  end.

Definition quote (s : string) : string := String quotationMark (escapeAll s).

(** [JSON.stringify(v)] without indentation. *)
Fixpoint stringify (v : JSON) : string :=
  match v with
  | JString s => quote s
  | JObject members =>
      "{" +:+
      (fix go (ms : list (string * JSON)) : string :=
         match ms with
         | [] => EmptyString
         | [(k, x)] => quote k +:+ ":" +:+ stringify x
         | (k, x) :: rest => quote k +:+ ":" +:+ stringify x +:+ "," +:+ go rest
         end) members
      +:+ "}"
  end.

(** A property [k: v] of an object literal under [JSON.stringify]: a
    property whose value is [undefined] is left out. *)
Definition member (k : string) (v : option string) : list (string * JSON) :=
  match v with
  | Some s => [(k, JString s)]
  | None => []
  end.

(** Reading a property of a payload. *)
Fixpoint lookup (k : string) (members : list (string * JSON)) : option JSON :=
  match members with
  | [] => None
  | (k', v) :: rest => if String.eqb k k' then Some v else lookup k rest
  end.

Definition field (k : string) (v : JSON) : option JSON :=
  match v with
  | JObject members => lookup k members
  | JString _ => None
  end.

End Json.

(** A [CallToolResult]: the [text] of each block of [content] (the blocks
    of this program all have [type: "text"]) and the [isError] flag, absent
    on success. *)
Record CallToolResult : Type := mkResult {
  content : list string;
  isError : option bool
}.

(** The object serialised on success. *)
Definition successPayload (result : Outcome) (fields : gmap string string)
           (now : string) : JSON :=
  JObject
    [ ("status", JString (if success result then "ok" else "error"));
      ("message", JString (message result));
      ("ticket",
        JObject
          (Json.member "name" (fields !! "name")
           ++ Json.member "issue" (fields !! "issue")
           ++ Json.member "priority" (nullish (fields !! "priority") (Some "Medium"))
           ++ Json.member "category"
                (nullish (fields !! "category") (Some "General Inquiry"))
           ++ [("timestamp", JString now)])) ].

(** The object serialised in the [catch] clause. *)
Definition errorPayload (msg : string) : JSON :=
  JObject [("status", JString "error"); ("message", JString msg)].

(** [error instanceof Error ? error.message : String(error)]. *)
Definition errorMessage (error : Thrown) : string :=
  match error with
  | ErrorInstance m => m
  | NonError s => s
  end.

(** The tool callback registered by [createServer].  [now] is the reading
    of the clock that [new Date().toISOString()] returns. *)
Definition handler (config : AppConfig) (network : Network) (now : string)
           (args : gmap string string) : M CallToolResult :=
  let fields := args in
  tryCatch
    (result ← sendSupportEmail network fields config;
     ret {| content := [Json.stringify (successPayload result fields now)];
            isError := None |})
    (fun error =>
       let msg := errorMessage error in
       ret {| content := [Json.stringify (errorPayload msg)];
              isError := Some true |}).

(* ===================================================================== *)
(** * Output streams *)
(* ===================================================================== *)

(** Where bytes leave the process. *)
Inductive Stream : Type :=
| Stdout
| Stderr
| HttpResponseBody
| SmtpConnection.

(** [console.log] prints its line to the standard output of the process;
    a mail submission travels over the connection to the mail server. *)
Definition eventStream (e : Event) : Stream :=
  match e with
  | ConsoleLog _ => Stdout
  | SendMail _ _ => SmtpConnection
  end.

(** Modelled from the spec: the entry point [main.ts], which connects the
    server built by [createServer] to a transport, is not among the
    sources.  The specification (section 6) speaks of "the channel carrying
    the structured protocol responses"; the repository's README describes
    the entry point as "HTTP or stdio transport".  Over HTTP a response is
    the body of the HTTP reply; over stdio the protocol messages are
    written to the standard output of the process. *)
Inductive ServerTransport : Type :=
| StreamableHttp
| Stdio.

Definition responseStream (t : ServerTransport) : Stream :=
  match t with
  | StreamableHttp => HttpResponseBody
  | Stdio => Stdout
  end.

(* ===================================================================== *)
(** * Vocabulary of the specification *)
(* ===================================================================== *)

Module Spec.

(** [tok] occurs nowhere in [s]. *)
Definition absent (tok s : string) : Prop :=
  forall p q, s <> p +:+ tok +:+ q.

(** [s] is [p], then its leftmost occurrence of [tok], then [q]. *)
Definition firstAt (tok s p q : string) : Prop :=
  s = p +:+ tok +:+ q /\
  forall p' q', s = p' +:+ tok +:+ q' -> String.length p <= String.length p'.

(** [r] is [s] with the leftmost occurrence of [tok], if any, replaced by
    the text [v]. *)
Inductive FirstReplaced (tok v s : string) : string -> Prop :=
| FirstReplaced_none : absent tok s -> FirstReplaced tok v s s
| FirstReplaced_one p q : firstAt tok s p q -> FirstReplaced tok v s (p +:+ v +:+ q).

(** [s] with every occurrence of the non-empty [tok] replaced by [v],
    scanning from the left; [skip] counts the characters of an occurrence
    still to be passed over. *)
Fixpoint replaceEveryFrom (tok v s : string) (skip : nat) : string :=
  match s with
  | EmptyString => EmptyString
  | String c s' =>
      match skip with
      | S k => replaceEveryFrom tok v s' k
      | O =>
          if JsString.startsWith tok s
          then v +:+ replaceEveryFrom tok v s' (String.length tok - 1)
          else String c (replaceEveryFrom tok v s' 0)
      end
  end.

Definition replaceEvery (tok v s : string) : string := replaceEveryFrom tok v s 0.

(** The subject as the specification words it: every [{{name}}] becomes
    the name, every [{{issue}}] the issue. *)
Definition subjectAllOccurrences (fields : gmap string string) (config : AppConfig)
  : string :=
  replaceEvery "{{issue}}" (toString (fields !! "issue"))
    (replaceEvery "{{name}}" (toString (fields !! "name"))
       (emailSubjectTemplate config)).

(** The text contains no dollar sign, the one character to which
    [replace] gives a meaning inside a replacement. *)
Fixpoint dollarFree (v : string) : bool :=
  match v with
  | EmptyString => true
  | String c v' => negb (JsString.isChar c "$") && dollarFree v'
  end.

(** The schema demands the key and accepts strings. *)
Definition requiredString (o : option ZodSchema) : Prop :=
  exists s, o = Some s /\ z.isRequired s = true /\ z.isString s = true.

(** The schema accepts strings for the key and allows it to be absent. *)
Definition optionalString (o : option ZodSchema) : Prop :=
  exists s, o = Some s /\ z.isRequired s = false /\ z.isString s = true.

(** The description of the schema is [d], and [d] mentions each of
    [values]. *)
Definition enumerates (o : option ZodSchema) (d : string) (values : list string)
  : Prop :=
  exists s, o = Some s /\ z.describedAs s = Some d /\
            forall v, In v values -> JsString.includes d v = true.

(** The schema a custom field asks for: a string, described by the label
    of the field, required exactly when the field says so. *)
Definition fieldSchema (f : FieldConfig) (o : option ZodSchema) : Prop :=
  exists s, o = Some s /\ z.isString s = true /\
            z.isRequired s = required f /\ z.describedAs s = Some (label f).

(** A value counts as present when it is a non-empty string. *)
Definition present (v : option string) : bool := JsString.truthy v.

(** A credential half that is the empty string or was never set. *)
Definition emptyOrUnset (v : option string) : Prop := v = None \/ v = Some EmptyString.

Definition line (title : string) (v : option string) : string :=
  title +:+ ": " +:+ toString v.

Definition optionalLine (title : string) (v : option string) : list string :=
  if present v then [line title v] else [].

(** The lines of the custom fields: declared order, present values only. *)
Definition customLines (fields : gmap string string) (fs : list FieldConfig)
  : list string :=
  map (fun f => line (label f) (fields !! key f))
      (List.filter (fun f => present (fields !! key f)) fs).

(** The body as the specification lays it out. *)
Definition bodyLines (fields : gmap string string) (config : AppConfig)
  : list string :=
  [ "New support ticket received via " +:+ name (brand config);
    EmptyString; "--- Ticket Details ---"; EmptyString;
    line "Name" (fields !! "name");
    line "Issue" (fields !! "issue") ]
  ++ optionalLine "Priority" (fields !! "priority")
  ++ optionalLine "Category" (fields !! "category")
  ++ customLines fields (customFields config)
  ++ [EmptyString; "--- End of Ticket ---"].

(** The custom fields of a configuration other than those keyed [k]. *)
Definition withoutKey (k : string) (fs : list FieldConfig) : list FieldConfig :=
  List.filter (fun f => negb (String.eqb (key f) k)) fs.

(** How one key of the result relates to the same key of the default and
    of the override: a value in the override wins, a key the override
    does not have falls through to the default. *)
Definition merged {A} (default override result : prop A) : Prop :=
  (forall v, override = Has v -> result = Has v) /\
  (override = Missing -> result = default).

(** The property [f] of the object held by [p]; the override has no such
    property when [p] holds no object. *)
Definition at_ {A B} (p : prop A) (f : A -> prop B) : prop B :=
  match p with
  | Has a => f a
  | Missing | Undefined => Missing
  end.

(** The override that sets [brand.name] and nothing else. *)
Definition onlyBrandName (n : string) : Partial.AppConfig :=
  {| Partial.brand :=
       Has {| Partial.name := Has n; Partial.primaryColor := Missing;
              Partial.secondaryColor := Missing; Partial.logoUrl := Missing;
              Partial.tagline := Missing |};
     Partial.smtp := Missing; Partial.supportEmail := Missing;
     Partial.emailSubjectTemplate := Missing; Partial.customFields := Missing;
     Partial.priorities := Missing; Partial.categories := Missing |}.

End Spec.

(* ===================================================================== *)
(** * Sample data *)
(* ===================================================================== *)

(** The default configuration when no environment variable is set and
    [parseInt("587", 10)] is 587. *)
Definition sampleDefaults : Partial.AppConfig := defaultConfig ∅ (fun _ => Num 587).

Definition sampleConfig : AppConfig :=
  {| brand :=
       {| name := "Customer Support"; primaryColor := "#2563eb";
          secondaryColor := "#1e40af"; logoUrl := None;
          tagline := "We're here to help" |};
     smtp :=
       {| host := "smtp.gmail.com"; port := Num 587; secure := false;
          auth := {| user := Some EmptyString; pass := Some EmptyString |} |};
     supportEmail := "support@example.com";
     emailSubjectTemplate := "Support Request from {{name}}: {{issue}}";
     customFields := defaultCustomFields;
     priorities := defaultPriorities;
     categories := defaultCategories |}.

Definition withTemplate (t : string) (c : AppConfig) : AppConfig :=
  {| brand := brand c; smtp := smtp c; supportEmail := supportEmail c;
     emailSubjectTemplate := t; customFields := customFields c;
     priorities := priorities c; categories := categories c |}.

Definition withCredentials (u p : string) (c : AppConfig) : AppConfig :=
  {| brand := brand c;
     smtp := {| host := host (smtp c); port := port (smtp c);
                secure := secure (smtp c);
                auth := {| user := Some u; pass := Some p |} |};
     supportEmail := supportEmail c;
     emailSubjectTemplate := emailSubjectTemplate c;
     customFields := customFields c;
     priorities := priorities c; categories := categories c |}.

Definition withCustomFields (fs : list FieldConfig) (c : AppConfig) : AppConfig :=
  {| brand := brand c; smtp := smtp c; supportEmail := supportEmail c;
     emailSubjectTemplate := emailSubjectTemplate c; customFields := fs;
     priorities := priorities c; categories := categories c |}.

(** Scenario A of the specification: [{name: "Ada", issue: "Login broken"}]. *)
Definition ada : gmap string string :=
  <[ "issue" := "Login broken" ]> (<[ "name" := "Ada" ]> ∅).

(* ===================================================================== *)
(** * Server assembly ([createServer]) *)
(* ===================================================================== *)

Module Server.

(** The configuration given to [registerAppTool]. *)
Record ToolConfig : Type := mkTool {
  title : string;
  description : string;
  inputSchema : gmap string ZodSchema;
  uiResourceUri : string
}.

(** One entry of [contents] in a [ReadResourceResult]. *)
Record ResourceContents : Type := mkContents {
  uri : string;
  mimeType : string;
  text : string
}.

(** What [createServer] has registered on the [McpServer] it returns. *)
Record McpServer : Type := mkServer {
  serverName : string;
  serverVersion : string;
  toolName : string;
  toolConfig : ToolConfig;
  toolCallback : Network -> string -> gmap string string -> M CallToolResult;
  resourceName : string;
  resourceUri : string;
  resourceMimeType : string;
  resourceCallback : (string -> Thrown + string) -> Completion (list ResourceContents)
}.

End Server.

(** [s.endsWith(suffix)]: some tail of [s] is [suffix]. *)
Fixpoint endsWith (s suffix : string) : bool :=
  if String.eqb s suffix then true
  else match s with
       | EmptyString => false
       | String _ s' => endsWith s' suffix
       end.

Section ServerAssembly.

(** [import.meta.filename], [import.meta.dirname], [path.join] and the
    constant [RESOURCE_MIME_TYPE] of the MCP Apps SDK. *)
Variables (filename dirname : string).
Variable pathJoin : string -> string -> string.
Variable RESOURCE_MIME_TYPE : string.

Definition DIST_DIR : string :=
  if endsWith filename ".ts" then pathJoin dirname "dist" else dirname.

Definition uiResourceUri : string := "ui://customer-support/mcp-app.html".

(** The callback of the UI resource.  [readFile] is the file system as
    [fs.readFile(_, "utf-8")] finds it: the text of the file, or the value
    the promise rejects with.  Nothing catches a rejection here. *)
Definition readUiResource (readFile : string -> Thrown + string)
  : Completion (list Server.ResourceContents) :=
  match readFile (pathJoin DIST_DIR "mcp-app.html") with
  | inr html =>
      Returned [ {| Server.uri := uiResourceUri;
                    Server.mimeType := RESOURCE_MIME_TYPE;
                    Server.text := html |} ]
  | inl e => Threw e
  end.

(** The body of [createServer] once the configuration is resolved. *)
Definition createServerWith (config : AppConfig) : Server.McpServer :=
  let resourceUri := uiResourceUri in
  let inputSchema := buildInputSchema config in
  {| Server.serverName := name (brand config) +:+ " MCP Server";
     Server.serverVersion := "1.0.0";
     Server.toolName := "customer_support";
     Server.toolConfig :=
       {| Server.title := name (brand config);
          Server.description :=
            "Submit a customer support ticket. Collects the customer's name, "
            +:+ "issue description, and optional metadata, then sends an email to "
            +:+ "the support team.";
          Server.inputSchema := inputSchema;
          Server.uiResourceUri := resourceUri |};
     Server.toolCallback := fun network now args => handler config network now args;
     Server.resourceName := resourceUri;
     Server.resourceUri := resourceUri;
     Server.resourceMimeType := RESOURCE_MIME_TYPE;
     Server.resourceCallback := readUiResource |}.

(** [createServer(configOverrides?)].  The server is described for the
    merged objects that satisfy the interface [AppConfig], against which
    the tool callback is written. *)
Definition createServer (env : gmap string string) (parseInt10 : string -> number)
           (configOverrides : option Partial.AppConfig) : option Server.McpServer :=
  createServerWith
    <$> asAppConfig
          (createConfig env parseInt10
             (match configOverrides with Some o => o | None => Partial.empty end)).

End ServerAssembly.

(* ===================================================================== *)
(** * The form ([src/mcp-app.tsx]) *)
(* ===================================================================== *)

Module Ui.

(** The defaults embedded in the client.  [FieldDef] has the fields of
    [FieldConfig]. *)
Definition DEFAULT_BRAND : BrandConfig :=
  {| name := "Customer Support"; primaryColor := "#2563eb";
     secondaryColor := "#1e40af"; logoUrl := None;
     tagline := "We're here to help" |}.

Definition DEFAULT_PRIORITIES : list string := ["Low"; "Medium"; "High"; "Urgent"].

Definition DEFAULT_CATEGORIES : list string :=
  ["General Inquiry"; "Technical Support"; "Billing"; "Feature Request";
   "Bug Report"].

Definition DEFAULT_CUSTOM_FIELDS : list FieldConfig :=
  [ {| key := "email"; label := "Email Address"; type := email_;
       placeholder := "you@example.com"; required := false;
       options := None |} ].

(** The arguments [handleSubmit] passes to [callServerTool]:
    [{ name, issue, priority, category, ...customValues }], where a key of
    [customValues] wins over the four written before it. *)
Definition submitArgs (name issue priority category : string)
           (customValues : gmap string string) : gmap string string :=
  customValues ∪
  (<[ "category" := category ]>
   (<[ "priority" := priority ]>
    (<[ "issue" := issue ]>
     (<[ "name" := name ]> ∅)))).

End Ui.

(* ===================================================================== *)
(** * Further vocabulary *)
(* ===================================================================== *)

Module Terms.

(** No property of the override is written with the value [undefined]. *)
Definition definedProp {A} (p : prop A) : bool :=
  match p with
  | Undefined => false
  | Missing | Has _ => true
  end.

Definition definedIn {A} (inner : A -> bool) (p : prop A) : bool :=
  match p with
  | Undefined => false
  | Missing => true
  | Has a => inner a
  end.

Definition definedAuth (a : Partial.SmtpAuth) : bool :=
  definedProp (Partial.user a) && definedProp (Partial.pass a).

Definition definedSmtp (s : Partial.SmtpConfig) : bool :=
  definedProp (Partial.host s) && definedProp (Partial.port s)
  && definedProp (Partial.secure s) && definedIn definedAuth (Partial.auth s).

Definition definedBrand (b : Partial.BrandConfig) : bool :=
  definedProp (Partial.name b) && definedProp (Partial.primaryColor b)
  && definedProp (Partial.secondaryColor b) && definedProp (Partial.logoUrl b)
  && definedProp (Partial.tagline b).

Definition definedOverride (o : Partial.AppConfig) : bool :=
  definedIn definedBrand (Partial.brand o)
  && definedIn definedSmtp (Partial.smtp o)
  && definedProp (Partial.supportEmail o)
  && definedProp (Partial.emailSubjectTemplate o)
  && definedProp (Partial.customFields o)
  && definedProp (Partial.priorities o)
  && definedProp (Partial.categories o).

(** The brand name an override asks for, or the built-in one. *)
Definition brandNameOf (o : Partial.AppConfig) : string :=
  match Spec.at_ (Partial.brand o) Partial.name with
  | Has n => n
  | Missing | Undefined => "Customer Support"
  end.

(** No custom field of the configuration is keyed like a member that
    every object inherits ([constructor], [toString], ...). *)
Definition plainKeys (config : AppConfig) : Prop :=
  forall f, In f (customFields config) -> inherited (key f) = None.

(** The lines the loop over the custom fields appends, and the lines of
    the whole body, as the program reads the input. *)
Definition readLines (fields : gmap string string) (fs : list FieldConfig)
  : list string :=
  map (fun f => Spec.line (label f) (getProperty fields (key f)))
      (List.filter (fun f => Spec.present (getProperty fields (key f))) fs).

Definition composedLines (fields : gmap string string) (config : AppConfig)
  : list string :=
  [ "New support ticket received via " +:+ name (brand config);
    EmptyString; "--- Ticket Details ---"; EmptyString;
    Spec.line "Name" (fields !! "name");
    Spec.line "Issue" (fields !! "issue") ]
  ++ Spec.optionalLine "Priority" (fields !! "priority")
  ++ Spec.optionalLine "Category" (fields !! "category")
  ++ readLines fields (customFields config)
  ++ [EmptyString; "--- End of Ticket ---"].

(** The value holds none of the four patterns to which [replace] gives a
    meaning inside a replacement: a dollar sign followed by a dollar sign,
    an ampersand, a backquote or a quote.  Any other dollar sign is
    copied. *)
Fixpoint patternFree (v : string) : bool :=
  match v with
  | EmptyString => true
  | String c rest =>
      (if JsString.isChar c "$" then
         match rest with
         | String d _ =>
             negb (JsString.isChar d "$" || JsString.isChar d "&"
                   || JsString.isChar d "`" || JsString.isChar d "'")
         | EmptyString => true
         end
       else true)
      && patternFree rest
  end.

(** One key of the merge, with the case of a key written as [undefined]:
    the keys merged by spreading copy it, the keys guarded by [??] fall
    back to the default. *)
Definition mergedBySpread {A} (default override result : prop A) : Prop :=
  Spec.merged default override result
  /\ (override = Undefined -> result = Undefined).

Definition mergedWithFallback {A} (default override result : prop A) : Prop :=
  Spec.merged default override result
  /\ (override = Undefined -> result = default).

(** The two uniform readings of the rule that a key present in the
    override replaces the default and an unset key falls through: a key
    counts as present when the override owns it, or when it holds a value. *)
Definition ownedKeyWins {A} (default override result : prop A) : Prop :=
  match override with
  | Missing => result = default
  | Undefined | Has _ => result = override
  end.

Definition valueWins {A} (default override result : prop A) : Prop :=
  match override with
  | Has v => result = Has v
  | Missing | Undefined => result = default
  end.

(** The keys the input contract of a configuration declares. *)
Definition fixedKeys : list string := ["name"; "issue"; "priority"; "category"].

Definition declaredKeys (config : AppConfig) : gset string :=
  list_to_set (fixedKeys ++ map key (customFields config)).


(** What holds of every entry of a shape: it accepts strings and is
    described. *)
Definition describedString (s : ZodSchema) : Prop :=
  z.isString s = true /\ exists d, z.describedAs s = Some d.

Definition isSendMail (e : Event) : bool :=
  match e with
  | SendMail _ _ => true
  | ConsoleLog _ => false
  end.

Definition isConsoleLog (e : Event) : bool :=
  match e with
  | ConsoleLog _ => true
  | SendMail _ _ => false
  end.

(** The text holds no opening brace, the character every token starts
    with. *)
Fixpoint braceFree (s : string) : bool :=
  match s with
  | EmptyString => true
  | String c s' => negb (JsString.isChar c "{") && braceFree s'
  end.

(** No character of the text is a control character (code below 32);
    in particular the text holds no line break. *)
Fixpoint noControl (s : string) : bool :=
  match s with
  | EmptyString => true
  | String c s' => negb (Nat.ltb (nat_of_ascii c) 32) && noControl s'
  end.

End Terms.

(* ===================================================================== *)
(** * Facts about string search and replacement *)
(* ===================================================================== *)

Section StringFacts.

Local Abbreviation len := String.length.

(** stdpp keeps [+:+] from unfolding under [simpl]; these two equations
    are its definition. *)
Lemma append_nil (q : string) : EmptyString +:+ q = q.
Proof. reflexivity. Qed.

Lemma append_cons (a : ascii) (p q : string) : String a p +:+ q = String a (p +:+ q).
Proof. reflexivity. Qed.

Local Ltac unfold_append := rewrite ?append_cons, ?append_nil.
Local Ltac unfold_append_in H := rewrite ?append_cons, ?append_nil in H.

Lemma append_assoc (a b c : string) : (a +:+ b) +:+ c = a +:+ b +:+ c.
Proof.
  induction a as [|x a IH]; unfold_append; [reflexivity | now f_equal].
Qed.

Lemma append_empty_r (a : string) : a +:+ EmptyString = a.
Proof.
  induction a as [|x a IH]; unfold_append; [reflexivity | now f_equal].
Qed.

Lemma startsWith_append (p q : string) : startsWith p (p +:+ q) = true.
Proof.
  induction p as [|a p IH]; unfold_append; simpl; [reflexivity|].
  now rewrite Ascii.eqb_refl.
Qed.

Lemma startsWith_true (p s : string) :
  startsWith p s = true -> exists q, s = p +:+ q.
Proof.
  revert s. induction p as [|a p IH]; intros s H; simpl in *.
  - now exists s.
  - destruct s as [|b s]; [discriminate|].
    destruct (Ascii.eqb a b) eqn:E; [|discriminate].
    apply Ascii.eqb_eq in E. subst b.
    destruct (IH _ H) as [q ->]. now exists q.
Qed.

Lemma take_append (p r : string) : take (len p) (p +:+ r) = p.
Proof.
  induction p as [|a p IH]; unfold_append; simpl; [now destruct r | now f_equal].
Qed.

Lemma drop_append (p r : string) : drop (len p) (p +:+ r) = r.
Proof.
  induction p as [|a p IH]; unfold_append; simpl; [now destruct r | exact IH].
Qed.

Lemma drop_append_plus (p r : string) (n : nat) :
  drop (len p + n) (p +:+ r) = drop n r.
Proof.
  induction p as [|a p IH]; unfold_append; simpl; [reflexivity | exact IH].
Qed.

(** What a successful search found: the leftmost occurrence. *)
Lemma indexOfFrom_Some (tok s : string) (k i : nat) :
  indexOfFrom tok s k = Some i ->
  exists p q, Spec.firstAt tok s p q /\ i = k + len p.
Proof.
  revert k. induction s as [|c s IH]; intros k H; simpl in H.
  - destruct (startsWith tok EmptyString) eqn:E; [|discriminate].
    injection H as <-. destruct (startsWith_true _ _ E) as [q Hq].
    exists EmptyString, q. repeat split; unfold_append; simpl; [exact Hq | lia | lia].
  - destruct (startsWith tok (String c s)) eqn:E.
    + injection H as <-. destruct (startsWith_true _ _ E) as [q Hq].
      exists EmptyString, q. repeat split; unfold_append; simpl; [exact Hq | lia | lia].
    + destruct (IH _ H) as (p & q & [Hs Hmin] & ->).
      exists (String c p), q. repeat split; unfold_append; simpl.
      * now rewrite Hs.
      * intros [|c' p'] q' E'; unfold_append_in E'.
        -- rewrite E' in E. now rewrite startsWith_append in E.
        -- injection E' as -> E'. simpl. apply le_n_S. now apply (Hmin p' q').
      * lia.
Qed.

(** A failed search: the token occurs nowhere. *)
Lemma indexOfFrom_None (tok s : string) (k : nat) :
  indexOfFrom tok s k = None -> Spec.absent tok s.
Proof.
  revert k. induction s as [|c s IH]; intros k H p q E; simpl in H.
  - destruct (startsWith tok EmptyString) eqn:Es; [discriminate|].
    destruct p; unfold_append_in E; [|discriminate].
    rewrite E in Es. now rewrite startsWith_append in Es.
  - destruct (startsWith tok (String c s)) eqn:Es; [discriminate|].
    destruct p as [|c' p]; unfold_append_in E.
    + rewrite E in Es. now rewrite startsWith_append in Es.
    + injection E as -> E. exact (IH _ H p q E).
Qed.

Lemma absent_indexOf (tok s : string) :
  Spec.absent tok s -> indexOf tok s = None.
Proof.
  intros A. unfold indexOf. destruct (indexOfFrom tok s 0) as [i|] eqn:E; [|reflexivity].
  destruct (indexOfFrom_Some _ _ _ _ E) as (p & q & [Hs _] & _).
  now destruct (A p q).
Qed.

Lemma firstAt_indexOf (tok s p q : string) :
  Spec.firstAt tok s p q -> indexOf tok s = Some (len p).
Proof.
  intros [Hs Hmin]. unfold indexOf.
  destruct (indexOfFrom tok s 0) as [i|] eqn:E.
  - destruct (indexOfFrom_Some _ _ _ _ E) as (p0 & q0 & [Hs0 Hmin0] & ->).
    simpl. f_equal.
    pose proof (Hmin p0 q0 Hs0). pose proof (Hmin0 p q Hs). lia.
  - now destruct (indexOfFrom_None _ _ _ E p q).
Qed.

(** Every string has a leftmost occurrence of the token or none. *)
Lemma first_or_absent (tok s : string) :
  Spec.absent tok s \/ exists p q, Spec.firstAt tok s p q.
Proof.
  destruct (indexOfFrom tok s 0) as [i|] eqn:E.
  - right. destruct (indexOfFrom_Some _ _ _ _ E) as (p & q & H & _). now exists p, q.
  - left. exact (indexOfFrom_None _ _ _ E).
Qed.

Lemma getSubstitution_dollarFree (matched str : string) (pos : nat) (v : string) :
  Spec.dollarFree v = true -> getSubstitution matched str pos v = v.
Proof.
  induction v as [|c v IH]; simpl; [reflexivity|].
  intros H. apply andb_prop in H as [Hc Hv].
  apply negb_true_iff in Hc. rewrite Hc. now rewrite IH.
Qed.

Lemma replace_absent (tok v s : string) :
  Spec.absent tok s -> replace s tok v = s.
Proof. intros A. unfold replace. now rewrite absent_indexOf. Qed.

(** [replace] rewrites the leftmost occurrence and nothing else. *)
Lemma replace_firstAt (tok v s p q : string) :
  Spec.firstAt tok s p q ->
  replace s tok v = p +:+ getSubstitution tok s (len p) v +:+ q.
Proof.
  intros F. unfold replace. rewrite (firstAt_indexOf _ _ _ _ F).
  destruct F as [-> _].
  rewrite take_append, drop_append_plus, drop_append. reflexivity.
Qed.

Lemma append_inj_length (p p' r r' : string) :
  p +:+ r = p' +:+ r' -> len p = len p' -> p = p' /\ r = r'.
Proof.
  revert p'. induction p as [|a p IH]; intros [|a' p'] E L; simpl in L;
    try discriminate; unfold_append_in E.
  - now split.
  - injection E as -> E. injection L as L.
    destruct (IH _ E L) as [-> ->]. now split.
Qed.

Lemma firstAt_unique (tok s p q p' q' : string) :
  Spec.firstAt tok s p q -> Spec.firstAt tok s p' q' -> p = p' /\ q = q'.
Proof.
  intros [E M] [E' M'].
  assert (L : len p = len p') by (pose proof (M _ _ E'); pose proof (M' _ _ E); lia).
  rewrite E in E'. destruct (append_inj_length _ _ _ _ E' L) as [-> Hq].
  split; [reflexivity|].
  now destruct (append_inj_length tok tok q q' Hq eq_refl).
Qed.

(** The relation [FirstReplaced] determines its result. *)
Lemma FirstReplaced_functional (tok v s r r' : string) :
  Spec.FirstReplaced tok v s r -> Spec.FirstReplaced tok v s r' -> r = r'.
Proof.
  intros [A | p q F] [A' | p' q' F']; try reflexivity.
  - destruct F' as [E _]. now destruct (A p' q').
  - destruct F as [E _]. now destruct (A' p q).
  - now destruct (firstAt_unique _ _ _ _ _ _ F F') as [-> ->].
Qed.

Lemma replace_FirstReplaced (tok v s : string) :
  Spec.dollarFree v = true -> Spec.FirstReplaced tok v s (replace s tok v).
Proof.
  intros D. destruct (first_or_absent tok s) as [A | (p & q & F)].
  - rewrite replace_absent by assumption. now constructor.
  - rewrite (replace_firstAt _ _ _ _ _ F), getSubstitution_dollarFree by assumption.
    now constructor.
Qed.

(** A value without patterns is inserted as it is. *)
Lemma getSubstitution_patternFree (matched str : string) (pos : nat) (v : string) :
  Terms.patternFree v = true -> getSubstitution matched str pos v = v.
Proof.
  induction v as [|c v IH]; [reflexivity|].
  intros H. simpl in H. apply andb_prop in H as [Hc Hv]. specialize (IH Hv).
  simpl. revert Hc. destruct (Ascii.eqb c "$"); intros Hc; [|now rewrite IH].
  destruct v as [|d v']; [reflexivity|].
  apply negb_true_iff in Hc.
  apply orb_false_iff in Hc as [Hc H4]. apply orb_false_iff in Hc as [Hc H3].
  apply orb_false_iff in Hc as [H1 H2].
  rewrite H1, H2, H3, H4. now rewrite IH.
Qed.

(** Whatever the value, [replace] touches the leftmost occurrence only;
    what it puts there is the value itself when that holds no pattern. *)
Lemma replace_leftmost (tok v s : string) :
  exists inserted,
    Spec.FirstReplaced tok inserted s (replace s tok v)
    /\ (Terms.patternFree v = true -> inserted = v).
Proof.
  destruct (first_or_absent tok s) as [A | (p & q & F)].
  - exists v. rewrite replace_absent by assumption. split; [now constructor | auto].
  - exists (getSubstitution tok s (len p) v).
    rewrite (replace_firstAt _ _ _ _ _ F). split; [now constructor|].
    apply getSubstitution_patternFree.
Qed.

End StringFacts.

(* ===================================================================== *)
(** * Subject line *)
(* ===================================================================== *)

(** C1, as the specification states it, fails: with the template
    [{{name}} / {{name}}] and the name Ada the program yields
    [Ada / {{name}}], whereas replacing every occurrence would yield
    [Ada / Ada]. *)
Lemma subject_all_occurrences_counterexample :
  subject ada (withTemplate "{{name}} / {{name}}" sampleConfig) = "Ada / {{name}}"
  /\ Spec.subjectAllOccurrences ada (withTemplate "{{name}} / {{name}}" sampleConfig)
     = "Ada / Ada"
  /\ subject ada (withTemplate "{{name}} / {{name}}" sampleConfig)
     <> Spec.subjectAllOccurrences ada (withTemplate "{{name}} / {{name}}" sampleConfig).
Proof. vm_compute. repeat split; discriminate. Qed.

(** C1 (amended).  A template containing neither token is returned
    unchanged.  For every template and every input the subject is the
    template with the leftmost [{{name}}] replaced and then the leftmost
    [{{issue}}] of the result replaced; later occurrences stay.  What
    replaces a token is the value itself, unless the value holds one of the
    four patterns that [replace] interprets, a dollar sign followed by a
    dollar sign, an ampersand, a backquote or a quote; each value is
    judged on its own. *)
Theorem subject_replaces_first_occurrence
        (fields : gmap string string) (config : AppConfig) :
  (Spec.absent "{{name}}" (emailSubjectTemplate config) ->
   Spec.absent "{{issue}}" (emailSubjectTemplate config) ->
   subject fields config = emailSubjectTemplate config)
  /\
  (exists mid insertedName insertedIssue,
     Spec.FirstReplaced "{{name}}" insertedName (emailSubjectTemplate config) mid
     /\ Spec.FirstReplaced "{{issue}}" insertedIssue mid (subject fields config)
     /\ (Terms.patternFree (toString (fields !! "name")) = true ->
         insertedName = toString (fields !! "name"))
     /\ (Terms.patternFree (toString (fields !! "issue")) = true ->
         insertedIssue = toString (fields !! "issue"))).
Proof.
  split.
  - intros An Ai. unfold subject.
    rewrite (replace_absent _ _ _ An). now apply replace_absent.
  - unfold subject.
    destruct (replace_leftmost "{{name}}" (toString (fields !! "name"))
                (emailSubjectTemplate config)) as (n & Fn & Hn).
    destruct (replace_leftmost "{{issue}}" (toString (fields !! "issue"))
                (replace (emailSubjectTemplate config) "{{name}}"
                         (toString (fields !! "name")))) as (i & Fi & Hi).
    eexists. exists n, i. repeat split; eassumption.
Qed.

Lemma subject_replaces_first_occurrence_witness :
  subject ada (withTemplate "New support ticket" sampleConfig) = "New support ticket"
  /\
  exists mid,
    Spec.FirstReplaced "{{name}}" "Ada"
                       "Support Request from {{name}}: {{issue}}" mid /\
    Spec.FirstReplaced "{{issue}}" "Charged $5 twice" mid
                       (subject (<[ "issue" := "Charged $5 twice" ]> ada) sampleConfig).
Proof.
  split.
  - apply (proj1 (subject_replaces_first_occurrence
                    ada (withTemplate "New support ticket" sampleConfig)));
      apply (indexOfFrom_None _ _ 0); reflexivity.
  - destruct (proj2 (subject_replaces_first_occurrence
                       (<[ "issue" := "Charged $5 twice" ]> ada) sampleConfig))
      as (mid & n & i & Fn & Fi & Hn & Hi).
    rewrite (Hn ltac:(vm_compute; reflexivity)) in Fn.
    rewrite (Hi ltac:(vm_compute; reflexivity)) in Fi.
    exists mid. split.
    + replace "Ada" with (toString (<[ "issue" := "Charged $5 twice" ]> ada !! "name"))
        by (vm_compute; reflexivity).
      exact Fn.
    + replace "Charged $5 twice"
        with (toString (<[ "issue" := "Charged $5 twice" ]> ada !! "issue")) at 1
        by (vm_compute; reflexivity).
      exact Fi.
Defined.

(** The dollar patterns of [replace] are live: a name that reads [$&] is
    not inserted as it is. *)
Example subject_dollar_pattern :
  subject (<[ "name" := "$&" ]> ada) sampleConfig
  = "Support Request from {{name}}: Login broken".
Proof. reflexivity. Qed.

(* ===================================================================== *)
(** * Schema Builder *)
(* ===================================================================== *)

Section SchemaFacts.

Implicit Types (shape : gmap string ZodSchema) (fs : list FieldConfig).

Lemma includes_append (p v q : string) : includes (p +:+ v +:+ q) v = true.
Proof.
  unfold includes. destruct (indexOf v (p +:+ v +:+ q)) eqn:E; [reflexivity|].
  now destruct (indexOfFrom_None _ _ _ E p q).
Qed.

Lemma join_mentions (sep v : string) (l : list string) :
  In v l -> exists p q, join sep l = p +:+ v +:+ q.
Proof.
  induction l as [|x l IH]; intros H; [destruct H|].
  destruct H as [-> | H].
  - destruct l as [|y l].
    + exists EmptyString, EmptyString. simpl. now rewrite append_nil, append_empty_r.
    + exists EmptyString, (sep +:+ join sep (y :: l)). reflexivity.
  - destruct (IH H) as (p & q & E).
    destruct l as [|y l]; [destruct H|].
    exists (x +:+ sep +:+ p), q.
    change (join sep (x :: y :: l)) with (x +:+ sep +:+ join sep (y :: l)).
    rewrite E. now rewrite !append_assoc.
Qed.

Lemma bracketed_join_mentions (pre v : string) (l : list string) :
  In v l -> includes (pre +:+ join ", " l +:+ ")") v = true.
Proof.
  intros H. destruct (join_mentions ", " v l H) as (p & q & ->).
  rewrite !append_assoc, <- (append_assoc pre p). apply includes_append.
Qed.

(** A key that no custom field uses keeps the schema it had. *)
Lemma fold_addCustomField_other fs shape (k : string) :
  (forall f, In f fs -> key f <> k) ->
  fold_left addCustomField fs shape !! k = shape !! k.
Proof.
  revert shape. induction fs as [|f fs IH]; intros shape H; simpl; [reflexivity|].
  rewrite IH by (intros g Hg; apply H; now right).
  unfold addCustomField. apply lookup_insert_ne. apply H. now left.
Qed.

(** The last custom field declared with a key decides its schema. *)
Lemma fold_addCustomField_last fs1 fs2 (f : FieldConfig) shape :
  (forall g, In g fs2 -> key g <> key f) ->
  fold_left addCustomField (fs1 ++ f :: fs2) shape !! key f
  = Some (if required f
          then z.describe (label f) z.string
          else z.optional (z.describe (label f) z.string)).
Proof.
  intros H. rewrite fold_left_app. simpl.
  rewrite fold_addCustomField_other by assumption.
  unfold addCustomField. apply lookup_insert_eq.
Qed.

End SchemaFacts.

(** C2, as the specification states it, fails: a custom field keyed
    [name] takes the place of the fixed field, so an optional one makes
    [name] optional. *)
Lemma schema_name_overwritten_counterexample :
  z.isRequired <$>
    (buildInputSchema
       (withCustomFields
          [ {| key := "name"; label := "Nickname"; type := text_;
               placeholder := EmptyString; required := false; options := None |} ]
          sampleConfig) !! "name")
  = Some false
  /\
  ~ Spec.requiredString
      (buildInputSchema
         (withCustomFields
            [ {| key := "name"; label := "Nickname"; type := text_;
                 placeholder := EmptyString; required := false; options := None |} ]
            sampleConfig) !! "name").
Proof.
  split; [vm_compute; reflexivity|].
  intros (s & Hs & Hreq & _).
  assert (E : z.isRequired <$>
    (buildInputSchema
       (withCustomFields
          [ {| key := "name"; label := "Nickname"; type := text_;
               placeholder := EmptyString; required := false; options := None |} ]
          sampleConfig) !! "name") = Some false) by (vm_compute; reflexivity).
  rewrite Hs in E. simpl in E. congruence.
Qed.

(** C2 (amended).  Each fixed key that no custom field uses keeps its
    fixed schema: [name] and [issue] required strings, [priority] and
    [category] optional strings whose descriptions list the configured
    values.  Each custom field key is a string field described by the
    label and required exactly as the flag says, where the field meant is
    the last one declared with that key. *)
Theorem schema_fixed_and_custom_fields (config : AppConfig) :
  let shape := buildInputSchema config in
  let unused k := forall f, In f (customFields config) -> key f <> k in
  (unused "name" -> Spec.requiredString (shape !! "name"))
  /\ (unused "issue" -> Spec.requiredString (shape !! "issue"))
  /\ (unused "priority" ->
      Spec.optionalString (shape !! "priority")
      /\ Spec.enumerates (shape !! "priority")
           ("Ticket priority level (" +:+ join ", " (priorities config) +:+ ")")
           (priorities config))
  /\ (unused "category" ->
      Spec.optionalString (shape !! "category")
      /\ Spec.enumerates (shape !! "category")
           ("Issue category (" +:+ join ", " (categories config) +:+ ")")
           (categories config))
  /\ (forall fs1 f fs2,
         customFields config = fs1 ++ f :: fs2 ->
         (forall g, In g fs2 -> key g <> key f) ->
         Spec.fieldSchema f (shape !! key f)).
Proof.
  intros shape unused. subst shape. unfold buildInputSchema.
  repeat split.
  - intros U. rewrite fold_addCustomField_other by exact U.
    eexists. split; [reflexivity|]. split; reflexivity.
  - intros U. rewrite fold_addCustomField_other by exact U.
    eexists. split; [reflexivity|]. split; reflexivity.
  - rewrite fold_addCustomField_other by assumption.
    eexists. split; [reflexivity|]. split; reflexivity.
  - rewrite fold_addCustomField_other by assumption.
    eexists. split; [reflexivity|]. split; [reflexivity|].
    intros v Hv. now apply bracketed_join_mentions.
  - rewrite fold_addCustomField_other by assumption.
    eexists. split; [reflexivity|]. split; reflexivity.
  - rewrite fold_addCustomField_other by assumption.
    eexists. split; [reflexivity|]. split; [reflexivity|].
    intros v Hv. now apply bracketed_join_mentions.
  - intros fs1 f fs2 E L. rewrite E, fold_addCustomField_last by exact L.
    eexists. split; [reflexivity|].
    destruct (required f); repeat split.
Qed.

Lemma schema_fixed_and_custom_fields_witness :
  Spec.requiredString (buildInputSchema sampleConfig !! "name")
  /\ Spec.requiredString (buildInputSchema sampleConfig !! "issue")
  /\ Spec.optionalString (buildInputSchema sampleConfig !! "priority")
  /\ Spec.optionalString (buildInputSchema sampleConfig !! "category")
  /\ Spec.optionalString (buildInputSchema sampleConfig !! "email").
Proof.
  assert (U : forall k, k <> "email" ->
                forall f, In f (customFields sampleConfig) -> key f <> k).
  { intros k Hk f [<- | []]. simpl. congruence. }
  destruct (schema_fixed_and_custom_fields sampleConfig) as (A & B & C & D & E).
  split; [apply A, U; discriminate|].
  split; [apply B, U; discriminate|].
  split; [apply C, U; discriminate|].
  split; [apply D, U; discriminate|].
  destruct (E [] (mkField "email" "Email Address" email_ "you@example.com" false None) [])
    as (s & Hs & Hstr & Hreq & _); [reflexivity | intros g [] |].
  exists s. repeat split; assumption.
Defined.

(* ===================================================================== *)
(** * Delivery Dispatcher *)
(* ===================================================================== *)

Section DispatcherFacts.

Variable network : Network.
Implicit Types (fields : gmap string string) (config : AppConfig).

Lemma truthy_false (v : option string) :
  truthy v = false <-> Spec.emptyOrUnset v.
Proof.
  unfold Spec.emptyOrUnset. destruct v as [[|c s]|]; simpl; split; intros H;
    try reflexivity; try discriminate; auto.
  - destruct H as [H | H]; discriminate.
Qed.

Lemma truthy_true (v : option string) (s : string) :
  v = Some s -> s <> EmptyString -> truthy v = true.
Proof. intros -> H. destruct s; [contradiction | reflexivity]. Qed.

(** The fallback branch, spelled out. *)
Lemma sendSupportEmail_unconfigured fields config :
  credentialsPresent config = false ->
  sendSupportEmail network fields config
  = ([ ConsoleLog "=== EMAIL PREVIEW (SMTP not configured) ===";
       ConsoleLog ("To: " +:+ supportEmail config);
       ConsoleLog ("Subject: " +:+ subject fields config);
       ConsoleLog (buildEmailBody fields config);
       ConsoleLog "============================================" ],
     Returned {| success := true; message := recordedMessage |}).
Proof.
  unfold credentialsPresent, sendSupportEmail. intros H.
  rewrite <- negb_andb, H. reflexivity.
Qed.

(** The delivery branch, spelled out. *)
Lemma sendSupportEmail_configured fields config :
  credentialsPresent config = true ->
  let transporter :=
    {| transportHost := host (smtp config); transportPort := port (smtp config);
       transportSecure := secure (smtp config); transportAuth := auth (smtp config) |} in
  let mail :=
    {| Mail.from := user (auth (smtp config));
       Mail.to := supportEmail config;
       Mail.subject := subject fields config;
       Mail.text := buildEmailBody fields config;
       Mail.replyTo :=
         if truthy (fields !! "email") then fields !! "email" else None |} in
  sendSupportEmail network fields config
  = ([SendMail transporter mail],
     match network transporter mail with
     | None => Returned {| success := true;
                           message := "Support ticket sent successfully." |}
     | Some e => Threw e
     end).
Proof.
  unfold credentialsPresent, sendSupportEmail. intros H.
  rewrite <- negb_andb, H. simpl.
  unfold mbind, M_bind, bind, sendMail.
  now destruct (network _ _).
Qed.

Lemma credentialsPresent_nonempty config (u p : string) :
  user (auth (smtp config)) = Some u -> u <> EmptyString ->
  pass (auth (smtp config)) = Some p -> p <> EmptyString ->
  credentialsPresent config = true.
Proof.
  intros Hu Hu' Hp Hp'. unfold credentialsPresent.
  now rewrite (truthy_true _ _ Hu Hu'), (truthy_true _ _ Hp Hp').
Qed.

(** A failing transport makes the delivery branch throw its failure. *)
Lemma sendSupportEmail_transport_failure fields config (e : Thrown) :
  credentialsPresent config = true ->
  (forall t m, network t m = Some e) ->
  completion (sendSupportEmail network fields config) = Threw e.
Proof.
  intros C H. rewrite (sendSupportEmail_configured _ _ C). simpl. now rewrite H.
Qed.

(** Whatever happens, a dispatch that returns reports success. *)
Lemma sendSupportEmail_success fields config (result : Outcome) :
  completion (sendSupportEmail network fields config) = Returned result ->
  success result = true.
Proof.
  destruct (credentialsPresent config) eqn:C.
  - rewrite (sendSupportEmail_configured _ _ C). simpl.
    destruct (network _ _); [discriminate|]. now intros [= <-].
  - rewrite (sendSupportEmail_unconfigured _ _ C). now intros [= <-].
Qed.

End DispatcherFacts.

(** C3.  When a half of the credential pair is empty or unset the
    dispatcher writes the preview to the console, submits nothing to the
    mail transport and returns success with a message that contains
    the word recorded. *)
Theorem unconfigured_delivery_is_recorded_locally
        (network : Network) (fields : gmap string string) (config : AppConfig) :
  Spec.emptyOrUnset (user (auth (smtp config)))
  \/ Spec.emptyOrUnset (pass (auth (smtp config))) ->
  (forall e, In e (events (sendSupportEmail network fields config)) ->
             exists l, e = ConsoleLog l)
  /\ (forall t m, ~ In (SendMail t m) (events (sendSupportEmail network fields config)))
  /\ exists msg,
      completion (sendSupportEmail network fields config)
      = Returned {| success := true; message := msg |}
      /\ includes msg "recorded" = true.
Proof.
  intros H.
  assert (C : credentialsPresent config = false).
  { unfold credentialsPresent. apply andb_false_iff.
    destruct H as [H | H]; [left | right]; now apply truthy_false. }
  rewrite (sendSupportEmail_unconfigured network fields config C).
  split; [|split].
  - simpl. intros e He.
    repeat (destruct He as [<- | He]; [eexists; reflexivity|]). destruct He.
  - simpl. intros t m He.
    repeat (destruct He as [He | He]; [discriminate|]). exact He.
  - exists recordedMessage. split; reflexivity.
Qed.

Lemma unconfigured_delivery_is_recorded_locally_witness :
  (forall t m, ~ In (SendMail t m)
                    (events (sendSupportEmail (fun _ _ => None) ada sampleConfig)))
  /\ exists msg,
      completion (sendSupportEmail (fun _ _ => None) ada sampleConfig)
      = Returned {| success := true; message := msg |}
      /\ includes msg "recorded" = true.
Proof.
  apply (unconfigured_delivery_is_recorded_locally (fun _ _ => None) ada sampleConfig).
  left. right. reflexivity.
Defined.

(** C8, as the specification states it, fails for an [email] that is
    present but empty: the guard [fields.email || undefined] leaves
    reply-to unset, so it does not equal the submitted value. *)
Lemma reply_to_empty_email_counterexample :
  (<[ "email" := EmptyString ]> ada) !! "email" = Some EmptyString
  /\ exists transporter mail,
      events (sendSupportEmail (fun _ _ => None) (<[ "email" := EmptyString ]> ada)
                (withCredentials "bot@example.com" "secret" sampleConfig))
      = [SendMail transporter mail]
      /\ Mail.replyTo mail = None
      /\ Mail.replyTo mail <> (<[ "email" := EmptyString ]> ada) !! "email".
Proof.
  split; [vm_compute; reflexivity|].
  do 2 eexists. split; [vm_compute; reflexivity|].
  split; [reflexivity | vm_compute; discriminate].
Qed.

(** C8 (amended).  With both halves of the credential pair non-empty the
    dispatcher submits exactly one message: to the configured recipient,
    from the credential's user, with the submitted [email] as reply-to when
    it is present and not empty; an absent or empty [email] leaves reply-to
    unset.  When the transport accepts the message the dispatcher returns
    success with the fixed confirmation. *)
Theorem configured_delivery_sends_one_message
        (network : Network) (fields : gmap string string) (config : AppConfig)
        (u p : string) :
  user (auth (smtp config)) = Some u -> u <> EmptyString ->
  pass (auth (smtp config)) = Some p -> p <> EmptyString ->
  exists transporter mail,
    events (sendSupportEmail network fields config) = [SendMail transporter mail]
    /\ Mail.to mail = supportEmail config
    /\ Mail.from mail = Some u
    /\ (forall v, fields !! "email" = Some v -> v <> EmptyString -> Mail.replyTo mail = Some v)
    /\ (Spec.present (fields !! "email") = false -> Mail.replyTo mail = None)
    /\ (network transporter mail = None ->
        completion (sendSupportEmail network fields config)
        = Returned {| success := true;
                      message := "Support ticket sent successfully." |})
    /\ (forall e, network transporter mail = Some e ->
        completion (sendSupportEmail network fields config) = Threw e).
Proof.
  intros Hu Hu' Hp Hp'.
  pose proof (credentialsPresent_nonempty config u p Hu Hu' Hp Hp') as C.
  pose proof (sendSupportEmail_configured network fields config C) as E.
  cbv zeta in E. rewrite E. do 2 eexists.
  split; [reflexivity|]. simpl.
  split; [reflexivity|]. split; [exact Hu|].
  split; [|split; [|split]].
  - intros v Hv Hne. now rewrite (truthy_true _ _ Hv Hne).
  - unfold Spec.present. now intros ->.
  - now intros ->.
  - now intros e ->.
Qed.

Lemma configured_delivery_sends_one_message_witness :
  exists transporter mail,
    events (sendSupportEmail (fun _ _ => None)
              (<[ "email" := "ada@example.com" ]> ada)
              (withCredentials "bot@example.com" "secret" sampleConfig))
    = [SendMail transporter mail]
    /\ Mail.to mail = "support@example.com"
    /\ Mail.from mail = Some "bot@example.com"
    /\ Mail.replyTo mail = Some "ada@example.com"
    /\ completion (sendSupportEmail (fun _ _ => None)
                     (<[ "email" := "ada@example.com" ]> ada)
                     (withCredentials "bot@example.com" "secret" sampleConfig))
       = Returned {| success := true;
                     message := "Support ticket sent successfully." |}.
Proof.
  destruct (configured_delivery_sends_one_message (fun _ _ => None)
              (<[ "email" := "ada@example.com" ]> ada)
              (withCredentials "bot@example.com" "secret" sampleConfig)
              "bot@example.com" "secret")
    as (t & m & E & Hto & Hfrom & Hreply & _ & Hok & _);
    [reflexivity | discriminate | reflexivity | discriminate |].
  exists t, m. split; [exact E|]. split; [exact Hto|]. split; [exact Hfrom|].
  split; [apply Hreply; [reflexivity | discriminate] | apply Hok; reflexivity].
Defined.

(* ===================================================================== *)
(** * Ticket Composer *)
(* ===================================================================== *)

Section ComposerFacts.

Implicit Types (fields : gmap string string) (config : AppConfig)
         (fs : list FieldConfig) (lines : list string).

(** The loop of pushes yields the declarative list of custom lines. *)
Lemma fold_appendCustomField fields fs lines :
  fold_left (appendCustomField fields) fs lines
  = lines ++ Terms.readLines fields fs.
Proof.
  revert lines. induction fs as [|f fs IH]; intros lines; simpl.
  - now rewrite app_nil_r.
  - rewrite IH. unfold appendCustomField, Terms.readLines, Spec.present, push.
    simpl. destruct (truthy (getProperty fields (key f))); simpl; [|reflexivity].
    now rewrite <- app_assoc.
Qed.

Lemma buildEmailBody_lines fields config :
  buildEmailBody fields config = join LF (Terms.composedLines fields config).
Proof.
  unfold buildEmailBody, Terms.composedLines, Spec.optionalLine, Spec.present, push.
  rewrite fold_appendCustomField. f_equal.
  destruct (truthy (fields !! "priority")), (truthy (fields !! "category"));
    simpl; rewrite <- ?app_assoc; reflexivity.
Qed.

(** Under a key that is not inherited the program reads the own property. *)
Lemma getProperty_plain fields (k : string) :
  inherited k = None -> getProperty fields k = fields !! k.
Proof. intros H. unfold getProperty. now destruct (fields !! k). Qed.

Lemma readLines_plain fields fs :
  (forall f, In f fs -> inherited (key f) = None) ->
  Terms.readLines fields fs = Spec.customLines fields fs.
Proof.
  unfold Terms.readLines, Spec.customLines.
  induction fs as [|f fs IH]; intros H; simpl; [reflexivity|].
  rewrite (getProperty_plain fields (key f)) by (apply H; now left).
  destruct (Spec.present (fields !! key f)); simpl;
    rewrite ?(getProperty_plain fields (key f)) by (apply H; now left);
    rewrite IH by (intros g Hg; apply H; now right); reflexivity.
Qed.

Lemma composedLines_plain fields config :
  Terms.plainKeys config ->
  Terms.composedLines fields config = Spec.bodyLines fields config.
Proof.
  intros H. unfold Terms.composedLines, Spec.bodyLines.
  now rewrite (readLines_plain fields (customFields config) H).
Qed.

(** Custom fields keyed [k] contribute nothing when the read under [k]
    finds no value. *)
Lemma readLines_withoutKey fields fs (k : string) :
  (forall f, In f fs -> key f = k -> Spec.present (getProperty fields k) = false) ->
  Terms.readLines fields (Spec.withoutKey k fs) = Terms.readLines fields fs.
Proof.
  unfold Terms.readLines, Spec.withoutKey.
  induction fs as [|f fs IH]; intros H; simpl; [reflexivity|].
  destruct (String.eqb (key f) k) eqn:E; simpl.
  - apply String.eqb_eq in E. rewrite E, (H f) by (auto; now left).
    apply IH. intros g Hg. apply H. now right.
  - destruct (Spec.present (getProperty fields (key f))); simpl;
      rewrite IH by (intros g Hg; apply H; now right); reflexivity.
Qed.

(** Removing a key whose value is the empty string changes no lookup that
    the composer makes, as far as presence goes. *)
Lemma present_delete_empty fields (k x : string) :
  fields !! k = Some EmptyString ->
  Spec.present (delete k fields !! x) = Spec.present (fields !! x).
Proof.
  intros H. destruct (decide (k = x)) as [<- | Hne].
  - now rewrite lookup_delete_eq, H.
  - now rewrite lookup_delete_ne.
Qed.



End ComposerFacts.

(** C5, as the specification states it, fails in its last part: the
    label of an omitted custom field can still occur in the body, here
    because the customer wrote it in the issue. *)
Lemma body_without_label_counterexample :
  (<[ "issue" := "My Email Address changed" ]> ada) !! "email" = None
  /\ In (mkField "email" "Email Address" email_ "you@example.com" false None)
        (customFields sampleConfig)
  /\ includes
       (buildEmailBody (<[ "issue" := "My Email Address changed" ]> ada) sampleConfig)
       "Email Address" = true.
Proof. split; [|split]; [vm_compute; reflexivity | now left | vm_compute; reflexivity]. Qed.

(** C5 (amended).  For a configuration none of whose custom fields is
    keyed like a member that every object inherits, the body is the header
    naming the brand, a separator, the name line, the issue line, a priority
    line and a category line when those values are present, one
    label-and-value line for each custom field with a present value, in
    declared order, and the closing separator.  A custom field without a
    value adds no line: the body is the one of the configuration that does
    not declare the field. *)
Theorem body_lines_in_fixed_order
        (fields : gmap string string) (config : AppConfig) :
  Terms.plainKeys config ->
  buildEmailBody fields config = join LF (Spec.bodyLines fields config)
  /\ forall k,
      Spec.present (fields !! k) = false ->
      buildEmailBody fields config
      = buildEmailBody fields
          (withCustomFields (Spec.withoutKey k (customFields config)) config).
Proof.
  intros P. split.
  - now rewrite buildEmailBody_lines, (composedLines_plain _ _ P).
  - intros k H. rewrite !buildEmailBody_lines. unfold Terms.composedLines. simpl.
    rewrite readLines_withoutKey; [reflexivity|].
    intros f Hf <-. now rewrite (getProperty_plain fields (key f) (P f Hf)).
Qed.

Lemma body_lines_in_fixed_order_witness :
  buildEmailBody ada sampleConfig
  = buildEmailBody ada (withCustomFields [] sampleConfig).
Proof.
  apply (proj2 (body_lines_in_fixed_order ada sampleConfig
                  ltac:(intros f [<- | []]; reflexivity)) "email").
  reflexivity.
Defined.

Example body_of_scenario_A :
  Spec.bodyLines ada sampleConfig
  = [ "New support ticket received via Customer Support"; EmptyString;
      "--- Ticket Details ---"; EmptyString; "Name: Ada"; "Issue: Login broken";
      EmptyString; "--- End of Ticket ---" ].
Proof. reflexivity. Qed.

(* ===================================================================== *)
(** * Ticket Endpoint *)
(* ===================================================================== *)

Section EndpointFacts.

Variables (config : AppConfig) (network : Network) (now : string).
Implicit Types (args : gmap string string).

Lemma handler_returned args tr (result : Outcome) :
  sendSupportEmail network args config = (tr, Returned result) ->
  handler config network now args
  = (tr, Returned {| content := [Json.stringify (successPayload result args now)];
                     isError := None |}).
Proof.
  intros E. unfold handler, mbind, M_bind, bind, tryCatch. rewrite E. simpl.
  now rewrite app_nil_r.
Qed.

Lemma handler_threw args tr (e : Thrown) :
  sendSupportEmail network args config = (tr, Threw e) ->
  handler config network now args
  = (tr, Returned {| content := [Json.stringify (errorPayload (errorMessage e))];
                     isError := Some true |}).
Proof.
  intros E. unfold handler, mbind, M_bind, bind, tryCatch. rewrite E. simpl.
  now rewrite app_nil_r.
Qed.

(** The members of the ticket echo. *)
Lemma ticket_echo args (result : Outcome) :
  exists ticket,
    Json.field "ticket" (successPayload result args now) = Some ticket
    /\ Json.field "name" ticket = JString <$> (args !! "name")
    /\ Json.field "issue" ticket = JString <$> (args !! "issue")
    /\ Json.field "priority" ticket
       = Some (JString (match args !! "priority" with Some v => v | None => "Medium" end))
    /\ Json.field "category" ticket
       = Some (JString (match args !! "category" with
                        | Some v => v
                        | None => "General Inquiry"
                        end))
    /\ Json.field "timestamp" ticket = Some (JString now).
Proof.
  eexists. split; [reflexivity|].
  destruct (args !! "name"), (args !! "issue"), (args !! "priority"),
    (args !! "category"); repeat split.
Qed.

End EndpointFacts.

(** C6.  The handler never completes by throwing.  When the dispatch
    throws, the handler returns a result flagged as an error whose payload
    has status [error] and carries the message of what was thrown: the
    [message] of an [Error], the string form of any other value.  In
    particular, with a non-empty credential pair and a transport that fails
    with an [Error], the message returned is the transport's. *)
Theorem handler_turns_exceptions_into_error_payloads
        (config : AppConfig) (network : Network) (now : string)
        (args : gmap string string) :
  (exists r, completion (handler config network now args) = Returned r)
  /\ (forall e,
       completion (sendSupportEmail network args config) = Threw e ->
       exists payload,
         completion (handler config network now args)
         = Returned {| content := [Json.stringify payload]; isError := Some true |}
         /\ Json.field "status" payload = Some (JString "error")
         /\ Json.field "message" payload
            = Some (JString (match e with
                             | ErrorInstance m => m
                             | NonError s => s
                             end))
         /\ Json.field "ticket" payload = None)
  /\ (forall u p msg,
       user (auth (smtp config)) = Some u -> u <> EmptyString ->
       pass (auth (smtp config)) = Some p -> p <> EmptyString ->
       (forall t m, network t m = Some (ErrorInstance msg)) ->
       exists payload,
         completion (handler config network now args)
         = Returned {| content := [Json.stringify payload]; isError := Some true |}
         /\ Json.field "status" payload = Some (JString "error")
         /\ Json.field "message" payload = Some (JString msg)).
Proof.
  assert (T : forall e,
       completion (sendSupportEmail network args config) = Threw e ->
       completion (handler config network now args)
       = Returned {| content := [Json.stringify (errorPayload (errorMessage e))];
                     isError := Some true |}).
  { intros e H. destruct (sendSupportEmail network args config) as [tr c] eqn:E.
    simpl in H. subst c. now rewrite (handler_threw _ _ _ _ _ _ E). }
  split; [|split].
  - destruct (sendSupportEmail network args config) as [tr [result | e]] eqn:E.
    + rewrite (handler_returned _ _ _ _ _ _ E). eexists. reflexivity.
    + rewrite (handler_threw _ _ _ _ _ _ E). eexists. reflexivity.
  - intros e H. exists (errorPayload (errorMessage e)).
    split; [exact (T e H)|]. destruct e; repeat split.
  - intros u p msg Hu Hu' Hp Hp' Hnet.
    exists (errorPayload msg). split; [|split; reflexivity].
    apply (T (ErrorInstance msg)), sendSupportEmail_transport_failure;
      [exact (credentialsPresent_nonempty config u p Hu Hu' Hp Hp') | exact Hnet].
Qed.

Lemma handler_turns_exceptions_into_error_payloads_witness :
  exists payload,
    completion (handler (withCredentials "bot@example.com" "secret" sampleConfig)
                        (fun _ _ => Some (ErrorInstance "connect ECONNREFUSED"))
                        "2026-01-01T00:00:00.000Z" ada)
    = Returned {| content := [Json.stringify payload]; isError := Some true |}
    /\ Json.field "status" payload = Some (JString "error")
    /\ Json.field "message" payload = Some (JString "connect ECONNREFUSED").
Proof.
  apply (proj2 (proj2 (handler_turns_exceptions_into_error_payloads
                         (withCredentials "bot@example.com" "secret" sampleConfig)
                         (fun _ _ => Some (ErrorInstance "connect ECONNREFUSED"))
                         "2026-01-01T00:00:00.000Z" ada))
               "bot@example.com" "secret" "connect ECONNREFUSED");
    solve [reflexivity | discriminate].
Defined.

(** C7.  When the dispatch returns, the handler returns a payload with
    status [ok], the dispatcher's message, and a ticket that echoes the
    submitted name and issue, the submitted priority or [Medium] when none
    was submitted, the submitted category or [General Inquiry] when none
    was submitted, and the timestamp read from the clock; the result is not
    flagged as an error. *)
Theorem handler_echoes_ticket_on_success
        (config : AppConfig) (network : Network) (now : string)
        (args : gmap string string) (result : Outcome) :
  completion (sendSupportEmail network args config) = Returned result ->
  exists payload ticket,
    completion (handler config network now args)
    = Returned {| content := [Json.stringify payload]; isError := None |}
    /\ Json.field "status" payload = Some (JString "ok")
    /\ Json.field "message" payload = Some (JString (message result))
    /\ Json.field "ticket" payload = Some ticket
    /\ Json.field "name" ticket = JString <$> (args !! "name")
    /\ Json.field "issue" ticket = JString <$> (args !! "issue")
    /\ (forall v, args !! "priority" = Some v ->
                  Json.field "priority" ticket = Some (JString v))
    /\ (args !! "priority" = None ->
        Json.field "priority" ticket = Some (JString "Medium"))
    /\ (forall v, args !! "category" = Some v ->
                  Json.field "category" ticket = Some (JString v))
    /\ (args !! "category" = None ->
        Json.field "category" ticket = Some (JString "General Inquiry"))
    /\ Json.field "timestamp" ticket = Some (JString now).
Proof.
  intros H.
  pose proof (sendSupportEmail_success network args config result H) as S.
  destruct (sendSupportEmail network args config) as [tr c] eqn:E.
  simpl in H. subst c.
  destruct (ticket_echo now args result) as (ticket & Ht & Hn & Hi & Hp & Hc & Hts).
  exists (successPayload result args now), ticket.
  rewrite (handler_returned _ _ _ _ _ _ E).
  split; [reflexivity|]. split; [simpl; now rewrite S|].
  split; [reflexivity|]. split; [exact Ht|].
  split; [exact Hn|]. split; [exact Hi|].
  split; [intros v Hv; now rewrite Hp, Hv|].
  split; [intros Hv; now rewrite Hp, Hv|].
  split; [intros v Hv; now rewrite Hc, Hv|].
  split; [intros Hv; now rewrite Hc, Hv | exact Hts].
Qed.

Lemma handler_echoes_ticket_on_success_witness :
  exists payload ticket,
    completion (handler sampleConfig (fun _ _ => None) "2026-01-01T00:00:00.000Z" ada)
    = Returned {| content := [Json.stringify payload]; isError := None |}
    /\ Json.field "status" payload = Some (JString "ok")
    /\ Json.field "message" payload = Some (JString recordedMessage)
    /\ Json.field "ticket" payload = Some ticket
    /\ Json.field "name" ticket = Some (JString "Ada")
    /\ Json.field "issue" ticket = Some (JString "Login broken")
    /\ Json.field "priority" ticket = Some (JString "Medium")
    /\ Json.field "category" ticket = Some (JString "General Inquiry")
    /\ Json.field "timestamp" ticket = Some (JString "2026-01-01T00:00:00.000Z").
Proof.
  destruct (handler_echoes_ticket_on_success
              sampleConfig (fun _ _ => None) "2026-01-01T00:00:00.000Z" ada
              {| success := true; message := recordedMessage |} eq_refl)
    as (payload & ticket & H & Hs & Hm & Ht & Hn & Hi & _ & Hp & _ & Hc & Hts).
  exists payload, ticket.
  repeat (split; [assumption|]).
  split; [apply Hp; reflexivity|]. split; [apply Hc; reflexivity | exact Hts].
Defined.




(* ===================================================================== *)
(** * Channels *)
(* ===================================================================== *)

(** Every event of a call on the fallback path is a console line, hence
    written to the standard output. *)
Lemma fallback_events_on_stdout
      (config : AppConfig) (network : Network) (now : string)
      (args : gmap string string) :
  credentialsPresent config = false ->
  events (handler config network now args)
  = [ ConsoleLog "=== EMAIL PREVIEW (SMTP not configured) ===";
      ConsoleLog ("To: " +:+ supportEmail config);
      ConsoleLog ("Subject: " +:+ subject args config);
      ConsoleLog (buildEmailBody args config);
      ConsoleLog "============================================" ]
  /\ Forall (fun e => eventStream e = Stdout) (events (handler config network now args)).
Proof.
  intros C.
  rewrite (handler_returned config network now args _ _
             (sendSupportEmail_unconfigured network args config C)).
  split; [reflexivity|]. simpl. repeat constructor.
Qed.

(** Served over HTTP, the responses and the preview travel apart. *)
Lemma fallback_isolated_over_http
      (config : AppConfig) (network : Network) (now : string)
      (args : gmap string string) :
  credentialsPresent config = false ->
  Forall (fun e => eventStream e <> responseStream StreamableHttp)
         (events (handler config network now args)).
Proof.
  intros C. destruct (fallback_events_on_stdout config network now args C) as [_ F].
  eapply Forall_impl; [exact F|]. simpl. intros e ->. discriminate.
Qed.

(** C9 fails when the server is run over stdio: without credentials, the
    submission of scenario A prints the preview, subject and body included,
    on the standard output, which is the stream that carries the protocol
    responses. *)
Theorem preview_shares_stdout_with_stdio_responses :
  let run := handler sampleConfig (fun _ _ => None) "2026-01-01T00:00:00.000Z" ada in
  In (ConsoleLog "Subject: Support Request from Ada: Login broken") (events run)
  /\ In (ConsoleLog (buildEmailBody ada sampleConfig)) (events run)
  /\ Forall (fun e => eventStream e = responseStream Stdio) (events run).
Proof.
  cbv zeta.
  destruct (fallback_events_on_stdout sampleConfig (fun _ _ => None)
              "2026-01-01T00:00:00.000Z" ada eq_refl) as [E F].
  split; [|split].
  - rewrite E. right. right. left. reflexivity.
  - rewrite E. right. right. right. left. reflexivity.
  - exact F.
Qed.

(* ===================================================================== *)
(** * Config Resolver *)
(* ===================================================================== *)

Section ResolverFacts.

Variable env : gmap string string.
Variable parseInt10 : string -> number.

Lemma merged_spread {A} (d o : prop A) : Terms.mergedBySpread d o (spread d o).
Proof. split; [split|]; [now intros v -> | now intros -> | now intros ->]. Qed.

Lemma merged_nullish {A} (dv : A) (o : prop A) :
  Terms.mergedWithFallback (Has dv) o (written (nullish (get o) (Some dv))).
Proof. split; [split|]; [now intros v -> | now intros -> | now intros ->]. Qed.

Lemma spreadBrand_key {B} (f : Partial.BrandConfig -> prop B)
      (d : Partial.BrandConfig) (o : prop Partial.BrandConfig) :
  (forall a b, f (Partial.spreadBrand a (Some b)) = spread (f a) (f b)) ->
  f (Partial.spreadBrand d (get o)) = spread (f d) (Spec.at_ o f).
Proof. intros H. destruct o; simpl; [reflexivity | reflexivity | apply H]. Qed.

Lemma spreadSmtp_key {B} (f : Partial.SmtpConfig -> prop B)
      (d : Partial.SmtpConfig) (o : prop Partial.SmtpConfig) :
  (forall a b, f (Partial.spreadSmtp a (Some b)) = spread (f a) (f b)) ->
  f (Partial.spreadSmtp d (get o)) = spread (f d) (Spec.at_ o f).
Proof. intros H. destruct o; simpl; [reflexivity | reflexivity | apply H]. Qed.

Lemma spreadAuth_key {B} (f : Partial.SmtpAuth -> prop B)
      (d : Partial.SmtpAuth) (o : prop Partial.SmtpConfig) :
  (forall a b, f (Partial.spreadAuth a (Some b)) = spread (f a) (f b)) ->
  f (Partial.spreadAuth d (get o ≫= fun s => get (Partial.auth s)))
  = spread (f d) (Spec.at_ (Spec.at_ o Partial.auth) f).
Proof.
  intros H. destruct o as [| |s]; simpl; [reflexivity | reflexivity |].
  destruct (Partial.auth s); simpl; [reflexivity | reflexivity | apply H].
Qed.

(** The default configuration satisfies the declared interface. *)
Lemma defaultConfig_well_formed :
  exists config, asAppConfig (defaultConfig env parseInt10) = Some config.
Proof. eexists. reflexivity. Qed.

(** With no override the resolver returns the default. *)
Lemma createConfig_empty :
  createConfig env parseInt10 Partial.empty = defaultConfig env parseInt10.
Proof. reflexivity. Qed.

End ResolverFacts.

(** C4, as the specification states it, fails for keys that an override
    writes as [undefined], whichever way they are counted.  If such a key
    counts as present, [customFields] should be replaced, yet the default
    list is kept; if it counts as unset, [supportEmail] should fall through
    to the default, yet it is [undefined] in the result. *)
Lemma createConfig_undefined_keys_counterexample :
  Partial.customFields
    (createConfig ∅ (fun _ => Num 587)
       {| Partial.brand := Missing; Partial.smtp := Missing;
          Partial.supportEmail := Undefined;
          Partial.emailSubjectTemplate := Missing;
          Partial.customFields := Undefined;
          Partial.priorities := Missing; Partial.categories := Missing |})
  = Has defaultCustomFields
  /\ Partial.supportEmail
       (createConfig ∅ (fun _ => Num 587)
          {| Partial.brand := Missing; Partial.smtp := Missing;
             Partial.supportEmail := Undefined;
             Partial.emailSubjectTemplate := Missing;
             Partial.customFields := Undefined;
             Partial.priorities := Missing; Partial.categories := Missing |})
     = Undefined
  /\ ~ Terms.ownedKeyWins
        (Partial.customFields (defaultConfig ∅ (fun _ => Num 587)))
        Undefined
        (Partial.customFields
           (createConfig ∅ (fun _ => Num 587)
              {| Partial.brand := Missing; Partial.smtp := Missing;
                 Partial.supportEmail := Undefined;
                 Partial.emailSubjectTemplate := Missing;
                 Partial.customFields := Undefined;
                 Partial.priorities := Missing; Partial.categories := Missing |}))
  /\ ~ Terms.valueWins
        (Partial.supportEmail (defaultConfig ∅ (fun _ => Num 587)))
        Undefined
        (Partial.supportEmail
           (createConfig ∅ (fun _ => Num 587)
              {| Partial.brand := Missing; Partial.smtp := Missing;
                 Partial.supportEmail := Undefined;
                 Partial.emailSubjectTemplate := Missing;
                 Partial.customFields := Undefined;
                 Partial.priorities := Missing; Partial.categories := Missing |})).
Proof.
  split; [reflexivity|]. split; [reflexivity|]. split.
  - vm_compute. discriminate.
  - vm_compute. discriminate.
Qed.

(** C4 (amended).  Each of [supportEmail], [emailSubjectTemplate],
    [customFields], [priorities] and [categories] is the override's value
    when the override holds one and the default when the override lacks the
    key.  The result always has a [brand], an [smtp] and an [smtp.auth]
    object, whose keys are merged one by one in the same way.  A key that
    the override writes as [undefined] is [undefined] in the result, except
    for [customFields], [priorities] and [categories], which then keep the
    default.  In particular an override that sets only [brand.name] changes
    that key alone: [brand.primaryColor] and the whole of [smtp] stay as in
    the default. *)
Theorem createConfig_merges_key_by_key
        (env : gmap string string) (parseInt10 : string -> number)
        (overrides : Partial.AppConfig) :
  let d := defaultConfig env parseInt10 in
  let r := createConfig env parseInt10 overrides in
  let o_brand := Partial.brand overrides in
  let o_smtp := Partial.smtp overrides in
  let o_auth := Spec.at_ o_smtp Partial.auth in
  Terms.mergedBySpread (Partial.supportEmail d) (Partial.supportEmail overrides)
              (Partial.supportEmail r)
  /\ Terms.mergedBySpread (Partial.emailSubjectTemplate d)
                 (Partial.emailSubjectTemplate overrides)
                 (Partial.emailSubjectTemplate r)
  /\ Terms.mergedWithFallback (Partial.customFields d) (Partial.customFields overrides)
                 (Partial.customFields r)
  /\ Terms.mergedWithFallback (Partial.priorities d) (Partial.priorities overrides)
                 (Partial.priorities r)
  /\ Terms.mergedWithFallback (Partial.categories d) (Partial.categories overrides)
                 (Partial.categories r)
  /\ (exists r_brand r_smtp r_auth,
        Partial.brand r = Has r_brand
        /\ Partial.smtp r = Has r_smtp
        /\ Partial.auth r_smtp = Has r_auth
        /\ Terms.mergedBySpread (Partial.name defaultBrand)
                       (Spec.at_ o_brand Partial.name) (Partial.name r_brand)
        /\ Terms.mergedBySpread (Partial.primaryColor defaultBrand)
                       (Spec.at_ o_brand Partial.primaryColor)
                       (Partial.primaryColor r_brand)
        /\ Terms.mergedBySpread (Partial.secondaryColor defaultBrand)
                       (Spec.at_ o_brand Partial.secondaryColor)
                       (Partial.secondaryColor r_brand)
        /\ Terms.mergedBySpread (Partial.logoUrl defaultBrand)
                       (Spec.at_ o_brand Partial.logoUrl) (Partial.logoUrl r_brand)
        /\ Terms.mergedBySpread (Partial.tagline defaultBrand)
                       (Spec.at_ o_brand Partial.tagline) (Partial.tagline r_brand)
        /\ Terms.mergedBySpread (Partial.host (defaultSmtp env parseInt10))
                       (Spec.at_ o_smtp Partial.host) (Partial.host r_smtp)
        /\ Terms.mergedBySpread (Partial.port (defaultSmtp env parseInt10))
                       (Spec.at_ o_smtp Partial.port) (Partial.port r_smtp)
        /\ Terms.mergedBySpread (Partial.secure (defaultSmtp env parseInt10))
                       (Spec.at_ o_smtp Partial.secure) (Partial.secure r_smtp)
        /\ Terms.mergedBySpread (Partial.user (defaultAuth env))
                       (Spec.at_ o_auth Partial.user) (Partial.user r_auth)
        /\ Terms.mergedBySpread (Partial.pass (defaultAuth env))
                       (Spec.at_ o_auth Partial.pass) (Partial.pass r_auth))
  /\ (forall n,
        exists r_brand,
          Partial.brand (createConfig env parseInt10 (Spec.onlyBrandName n))
          = Has r_brand
          /\ Partial.name r_brand = Has n
          /\ Partial.primaryColor r_brand = Partial.primaryColor defaultBrand
          /\ Partial.smtp (createConfig env parseInt10 (Spec.onlyBrandName n))
             = Partial.smtp (defaultConfig env parseInt10)).
Proof.
  cbv zeta.
  split; [apply merged_spread|]. split; [apply merged_spread|].
  split; [apply merged_nullish|]. split; [apply merged_nullish|].
  split; [apply merged_nullish|]. split.
  - do 3 eexists. split; [reflexivity|]. split; [reflexivity|].
    split; [reflexivity|]. cbn [Partial.host Partial.port Partial.secure].
    rewrite !(spreadBrand_key _ defaultBrand) by reflexivity.
    rewrite !(spreadSmtp_key _ (defaultSmtp env parseInt10)) by reflexivity.
    rewrite !(spreadAuth_key _ (defaultAuth env)) by reflexivity.
    repeat split; apply merged_spread.
  - intros n. eexists. repeat split.
Qed.

Lemma createConfig_merges_key_by_key_witness :
  Partial.supportEmail
    (createConfig ∅ (fun _ => Num 587)
       {| Partial.brand := Partial.brand (Spec.onlyBrandName "My Company Support");
          Partial.smtp := Missing;
          Partial.supportEmail := Has "help@mycompany.com";
          Partial.emailSubjectTemplate := Missing;
          Partial.customFields := Missing;
          Partial.priorities := Missing;
          Partial.categories := Missing |})
  = Has "help@mycompany.com"
  /\
  Partial.priorities
    (createConfig ∅ (fun _ => Num 587)
       {| Partial.brand := Partial.brand (Spec.onlyBrandName "My Company Support");
          Partial.smtp := Missing;
          Partial.supportEmail := Has "help@mycompany.com";
          Partial.emailSubjectTemplate := Missing;
          Partial.customFields := Missing;
          Partial.priorities := Missing;
          Partial.categories := Missing |})
  = Has defaultPriorities.
Proof.
  destruct (createConfig_merges_key_by_key ∅ (fun _ => Num 587)
       {| Partial.brand := Partial.brand (Spec.onlyBrandName "My Company Support");
          Partial.smtp := Missing;
          Partial.supportEmail := Has "help@mycompany.com";
          Partial.emailSubjectTemplate := Missing;
          Partial.customFields := Missing;
          Partial.priorities := Missing;
          Partial.categories := Missing |})
    as ([[Hset _] _] & _ & _ & [[_ Hunset] _] & _).
  split; [apply Hset; reflexivity | apply Hunset; reflexivity].
Defined.

(** A key written with the value [undefined] is neither case of the
    merge: the spread copies it as it is, whereas [??] falls back to the
    default. *)
Example createConfig_explicit_undefined :
  let r := createConfig ∅ (fun _ => Num 587)
             {| Partial.brand := Missing; Partial.smtp := Missing;
                Partial.supportEmail := Undefined;
                Partial.emailSubjectTemplate := Missing;
                Partial.customFields := Undefined;
                Partial.priorities := Missing; Partial.categories := Missing |} in
  Partial.supportEmail r = Undefined
  /\ Partial.customFields r = Has defaultCustomFields.
Proof. split; reflexivity. Qed.

(** The sample configuration is the resolved default of an empty
    environment. *)
Example sampleConfig_is_default :
  createConfig ∅ (fun _ => Num 587) Partial.empty = sampleDefaults
  /\ asAppConfig sampleDefaults = Some sampleConfig.
Proof. split; reflexivity. Qed.

(* ===================================================================== *)
(** * Config Resolver: further properties *)
(* ===================================================================== *)

Section ResolverMore.

Variable env : gmap string string.
Variable parseInt10 : string -> number.

Lemma spread_idempotent {A} (d o : prop A) : spread d (spread d o) = spread d o.
Proof. destruct o, d; reflexivity. Qed.

Lemma spreadBrand_idempotent (d : Partial.BrandConfig) (o : option Partial.BrandConfig) :
  Partial.spreadBrand d (Some (Partial.spreadBrand d o)) = Partial.spreadBrand d o.
Proof.
  destruct d as [n c1 c2 l t], o as [[n' c1' c2' l' t']|]; simpl.
  - now rewrite !spread_idempotent.
  - destruct n, c1, c2, l, t; reflexivity.
Qed.

Lemma spreadAuth_idempotent (d : Partial.SmtpAuth) (o : option Partial.SmtpAuth) :
  Partial.spreadAuth d (Some (Partial.spreadAuth d o)) = Partial.spreadAuth d o.
Proof.
  destruct d as [u p], o as [[u' p']|]; simpl.
  - now rewrite !spread_idempotent.
  - destruct u, p; reflexivity.
Qed.

Lemma written_nullish_idempotent {A} (dv : A) (o : prop A) :
  written (nullish (get (written (nullish (get o) (Some dv)))) (Some dv))
  = written (nullish (get o) (Some dv)).
Proof. destruct o; reflexivity. Qed.

(** The typed view of a merged brand, when the override's brand writes no
    [undefined]. *)
Lemma asBrand_defined (o : prop Partial.BrandConfig) :
  Terms.definedIn Terms.definedBrand o = true ->
  exists b, asBrand (Partial.spreadBrand defaultBrand (get o)) = Some b
            /\ name b = match Spec.at_ o Partial.name with
                        | Has n => n
                        | Missing | Undefined => "Customer Support"
                        end.
Proof.
  destruct o as [| |[n c1 c2 l t]]; simpl; intros H;
    [eexists; split; reflexivity | discriminate |].
  unfold Terms.definedBrand in H. simpl in H.
  destruct n, c1, c2, l, t; try discriminate H; eexists; split; reflexivity.
Qed.

Lemma asSmtp_defined (o : prop Partial.SmtpConfig) :
  Terms.definedIn Terms.definedSmtp o = true ->
  let smtp' := Partial.spreadSmtp (defaultSmtp env parseInt10) (get o) in
  exists s,
    asSmtp {| Partial.host := Partial.host smtp';
              Partial.port := Partial.port smtp';
              Partial.secure := Partial.secure smtp';
              Partial.auth :=
                Has (Partial.spreadAuth (defaultAuth env)
                       (get o ≫= fun s => get (Partial.auth s))) |}
    = Some s.
Proof.
  destruct o as [| |[h p sec a]]; simpl; intros H;
    [eexists; reflexivity | discriminate |].
  unfold Terms.definedSmtp in H. simpl in H.
  destruct h, p, sec; try discriminate H; eexists; reflexivity.
Qed.

End ResolverMore.

(** X1.  Resolving is idempotent: merging the result of [createConfig]
    into the default once more changes nothing, for every override. *)
Theorem createConfig_idempotent
        (env : gmap string string) (parseInt10 : string -> number)
        (overrides : Partial.AppConfig) :
  createConfig env parseInt10 (createConfig env parseInt10 overrides)
  = createConfig env parseInt10 overrides.
Proof.
  destruct overrides as [b s e t cf ps cs]. unfold createConfig. simpl.
  f_equal.
  - f_equal. apply spreadBrand_idempotent.
  - f_equal. destruct s as [| |[h p sec a]]; simpl.
    + reflexivity.
    + reflexivity.
    + rewrite !spread_idempotent. f_equal. f_equal.
      destruct a as [| |[u pw]]; simpl; try reflexivity.
      now rewrite !spread_idempotent.
  - apply spread_idempotent.
  - apply spread_idempotent.
  - destruct cf; reflexivity.
  - destruct ps; reflexivity.
  - destruct cs; reflexivity.
Qed.

Lemma createConfig_typed
      (env : gmap string string) (parseInt10 : string -> number)
      (overrides : Partial.AppConfig) :
  Terms.definedOverride overrides = true ->
  exists config,
    asAppConfig (createConfig env parseInt10 overrides) = Some config
    /\ name (brand config) = Terms.brandNameOf overrides.
Proof.
  destruct overrides as [b s e t cf ps cs]. unfold Terms.definedOverride. simpl.
  intros H. repeat (apply andb_prop in H as [H ?]).
  destruct (asBrand_defined b H) as (rb & Hb & Hn).
  destruct (asSmtp_defined env parseInt10 s) as (rs & Hs); [assumption|].
  unfold asAppConfig, createConfig. simpl. simpl in Hs. rewrite Hb, Hs. simpl.
  destruct e, t, cf, ps, cs; try discriminate; eexists; split; try reflexivity;
    exact Hn.
Qed.

(** X2.  An override that writes no property as [undefined], at any
    level, resolves to a configuration that satisfies the interface
    [AppConfig]: every required property holds a value, and the brand name
    is the override's when it gives one. *)
Theorem createConfig_well_formed
        (env : gmap string string) (parseInt10 : string -> number)
        (overrides : Partial.AppConfig) :
  Terms.definedOverride overrides = true ->
  exists config,
    asAppConfig (createConfig env parseInt10 overrides) = Some config
    /\ name (brand config) = Terms.brandNameOf overrides.
Proof. apply createConfig_typed. Qed.

Lemma createConfig_well_formed_witness :
  exists config,
    asAppConfig (createConfig ∅ (fun _ => Num 587)
                   (Spec.onlyBrandName "My Company Support")) = Some config
    /\ name (brand config) = "My Company Support".
Proof.
  apply (createConfig_well_formed ∅ (fun _ => Num 587)
           (Spec.onlyBrandName "My Company Support")).
  reflexivity.
Defined.

(** X3.  Whatever the override, also one that writes [undefined], the
    result holds a list under [customFields], [priorities] and
    [categories]: the [??] guard falls back to the default.  The keys merged
    by spreading have no such guard: a [supportEmail] or
    [emailSubjectTemplate] written as [undefined] stays [undefined], and the
    result then fails the interface. *)
Theorem createConfig_lists_never_undefined
        (env : gmap string string) (parseInt10 : string -> number)
        (overrides : Partial.AppConfig) :
  (exists cf ps cs,
      Partial.customFields (createConfig env parseInt10 overrides) = Has cf
      /\ Partial.priorities (createConfig env parseInt10 overrides) = Has ps
      /\ Partial.categories (createConfig env parseInt10 overrides) = Has cs)
  /\ (Partial.supportEmail overrides = Undefined
      \/ Partial.emailSubjectTemplate overrides = Undefined ->
      asAppConfig (createConfig env parseInt10 overrides) = None).
Proof.
  destruct overrides as [b s e t cf ps cs]. split.
  - unfold createConfig. simpl. destruct cf, ps, cs; do 3 eexists; repeat split.
  - simpl. intros H. unfold asAppConfig, createConfig. simpl.
    destruct (asBrand _); simpl; [|reflexivity].
    destruct (asSmtp _); simpl; [|reflexivity].
    destruct H as [-> | ->]; simpl; [reflexivity|].
    destruct e; reflexivity.
Qed.

Lemma createConfig_lists_never_undefined_witness :
  asAppConfig
    (createConfig ∅ (fun _ => Num 587)
       {| Partial.brand := Missing; Partial.smtp := Missing;
          Partial.supportEmail := Undefined;
          Partial.emailSubjectTemplate := Missing;
          Partial.customFields := Undefined;
          Partial.priorities := Missing; Partial.categories := Missing |})
  = None.
Proof.
  apply (proj2 (createConfig_lists_never_undefined ∅ (fun _ => Num 587)
       {| Partial.brand := Missing; Partial.smtp := Missing;
          Partial.supportEmail := Undefined;
          Partial.emailSubjectTemplate := Missing;
          Partial.customFields := Undefined;
          Partial.priorities := Missing; Partial.categories := Missing |})).
  left. reflexivity.
Defined.

Section EnvironmentFacts.

Variable env : gmap string string.
Variable parseInt10 : string -> number.


End EnvironmentFacts.

(** The handler performs the effects of the dispatch and no other. *)
Lemma handler_events (config : AppConfig) (network : Network) (now : string)
      (args : gmap string string) :
  events (handler config network now args)
  = events (sendSupportEmail network args config).
Proof.
  destruct (sendSupportEmail network args config) as [tr [r | e]] eqn:E.
  - now rewrite (handler_returned _ _ _ _ _ _ E).
  - now rewrite (handler_threw _ _ _ _ _ _ E).
Qed.




(* ===================================================================== *)
(** * The input contract and what the pipeline reads *)
(* ===================================================================== *)

Section ContractFacts.

Implicit Types (shape : gmap string ZodSchema) (fs : list FieldConfig)
         (fields : gmap string string) (config : AppConfig).

Lemma dom_fold_addCustomField fs shape :
  dom (fold_left addCustomField fs shape)
  = dom shape ∪ list_to_set (map key fs).
Proof.
  revert shape. induction fs as [|f fs IH]; intros shape; simpl.
  - now rewrite (right_id_L ∅ (∪)).
  - rewrite IH. unfold addCustomField. rewrite dom_insert_L.
    rewrite (comm_L (∪) {[key f]} (dom shape)).
    now rewrite <- (assoc_L (∪) (dom shape)).
Qed.

Lemma dom_buildInputSchema config :
  dom (buildInputSchema config) = Terms.declaredKeys config.
Proof.
  unfold buildInputSchema, Terms.declaredKeys, Terms.fixedKeys.
  rewrite dom_fold_addCustomField, !dom_insert_L, dom_empty_L, list_to_set_app_L.
  simpl. set_solver.
Qed.

Lemma fold_addCustomField_entries fs shape :
  map_Forall (fun _ s => Terms.describedString s) shape ->
  map_Forall (fun _ s => Terms.describedString s) (fold_left addCustomField fs shape).
Proof.
  revert shape. induction fs as [|f fs IH]; intros shape H; simpl; [exact H|].
  apply IH. unfold addCustomField. apply map_Forall_insert_2; [|exact H].
  destruct (required f); split; try reflexivity; eexists; reflexivity.
Qed.

Lemma readLines_agree fields fields' fs :
  (forall f, In f fs -> fields !! key f = fields' !! key f) ->
  Terms.readLines fields fs = Terms.readLines fields' fs.
Proof.
  unfold Terms.readLines. induction fs as [|f fs IH]; intros H; simpl;
    [reflexivity|].
  assert (E : getProperty fields (key f) = getProperty fields' (key f))
    by (unfold getProperty; now rewrite (H f) by now left).
  rewrite E.
  destruct (Spec.present (getProperty fields' (key f))); simpl;
    rewrite ?E; rewrite IH by (intros g Hg; apply H; now right); reflexivity.
Qed.







End ContractFacts.

(** X5.  For a configuration without a custom field keyed [__proto__]
    (the one key whose assignment adds no property), the shape has exactly
    the keys [name], [issue], [priority], [category] and the keys of the
    custom fields, and each of its entries is a string schema that carries a
    description. *)
Theorem schema_keys_and_entries (config : AppConfig) :
  (forall f, In f (customFields config) -> key f <> "__proto__") ->
  dom (buildInputSchema config)
  = list_to_set (["name"; "issue"; "priority"; "category"]
                   ++ map key (customFields config))
  /\ forall k s,
      buildInputSchema config !! k = Some s ->
      z.isString s = true /\ exists d, z.describedAs s = Some d.
Proof.
  intros _. split; [apply dom_buildInputSchema|].
  intros k s H.
  refine (fold_addCustomField_entries (customFields config) _ _ k s H).
  repeat (apply map_Forall_insert_2;
          [split; [reflexivity | eexists; reflexivity]|]).
  apply map_Forall_empty.
Qed.

Lemma schema_keys_and_entries_witness :
  dom (buildInputSchema sampleConfig)
  = list_to_set ["name"; "issue"; "priority"; "category"; "email"]
  /\ z.isString (z.optional (z.describe "Email Address" z.string)) = true
  /\ exists d, z.describedAs (z.optional (z.describe "Email Address" z.string)) = Some d.
Proof.
  destruct (schema_keys_and_entries sampleConfig) as [D E].
  - intros f [<- | []]. discriminate.
  - split; [exact D|]. apply (E "email"). vm_compute. reflexivity.
Defined.





(* ===================================================================== *)
(** * Ticket Composer: values and structure *)
(* ===================================================================== *)

Section ComposerMore.

Implicit Types (fields : gmap string string) (config : AppConfig).

Lemma join_cons_app (sep x z : string) (l l' : list string) :
  join sep (x :: l ++ z :: l') = x +:+ sep +:+ join sep (l ++ z :: l').
Proof. destruct l; reflexivity. Qed.

(** Two adjacent lines and one line holding a line break are joined to
    the same text. *)
Lemma join_merge (sep a b : string) (l1 l2 : list string) :
  join sep (l1 ++ (a +:+ sep +:+ b) :: l2) = join sep (l1 ++ a :: b :: l2).
Proof.
  induction l1 as [|x l1 IH].
  - destruct l2 as [|y l2]; [reflexivity|].
    change (((a +:+ sep +:+ b) +:+ sep +:+ join sep (y :: l2))
            = a +:+ sep +:+ b +:+ sep +:+ join sep (y :: l2)).
    now rewrite !append_assoc.
  - rewrite <- !app_comm_cons, !join_cons_app. now rewrite IH.
Qed.

Lemma present_nonempty (v : string) : v <> EmptyString -> Spec.present (Some v) = true.
Proof. destruct v; [contradiction | reflexivity]. Qed.

End ComposerMore.

(** X8.  The body does not keep values apart from its own structure: an
    issue that ends in a line break followed by [Priority: p] yields the
    very body of the same issue submitted with priority [p].  (For inputs
    without a priority of their own and configurations whose custom fields
    are not keyed [issue] or [priority].) *)
Theorem body_lines_can_be_forged
        (config : AppConfig) (fields : gmap string string) (x p : string) :
  p <> EmptyString ->
  Spec.present (fields !! "priority") = false ->
  (forall f, In f (customFields config) -> key f <> "issue" /\ key f <> "priority") ->
  buildEmailBody (<[ "issue" := x +:+ LF +:+ "Priority: " +:+ p ]> fields) config
  = buildEmailBody (<[ "priority" := p ]> (<[ "issue" := x ]> fields)) config.
Proof.
  intros Hp Hnone Hkeys. rewrite !buildEmailBody_lines. unfold Terms.composedLines.
  rewrite (readLines_agree (<[ "issue" := x +:+ LF +:+ "Priority: " +:+ p ]> fields)
             fields)
    by (intros f Hf; apply lookup_insert_ne; intros E;
        destruct (Hkeys f Hf) as [H1 _]; now apply H1).
  rewrite (readLines_agree (<[ "priority" := p ]> (<[ "issue" := x ]> fields)) fields)
    by (intros f Hf; destruct (Hkeys f Hf) as [H1 H2];
        rewrite !lookup_insert_ne by congruence; reflexivity).
  rewrite !lookup_insert_eq.
  rewrite !lookup_insert_ne by discriminate.
  rewrite !lookup_insert_eq.
  rewrite !lookup_insert_ne by discriminate.
  unfold Spec.optionalLine at 1. rewrite Hnone.
  unfold Spec.optionalLine at 2. rewrite (present_nonempty p Hp).
  set (rest := Spec.optionalLine "Category" (fields !! "category")
               ++ Terms.readLines fields (customFields config)
               ++ [EmptyString; "--- End of Ticket ---"]).
  set (h := "New support ticket received via " +:+ name (brand config)).
  set (n := Spec.line "Name" (fields !! "name")).
  change (join LF ([h; EmptyString; "--- Ticket Details ---"; EmptyString; n]
                     ++ Spec.line "Issue" (Some (x +:+ LF +:+ "Priority: " +:+ p))
                     :: rest)
          = join LF ([h; EmptyString; "--- Ticket Details ---"; EmptyString; n]
                       ++ Spec.line "Issue" (Some x)
                       :: Spec.line "Priority" (Some p) :: rest)).
  rewrite <- join_merge. reflexivity.
Qed.

Lemma body_lines_can_be_forged_witness :
  buildEmailBody (<[ "issue" := "Login broken" +:+ LF +:+ "Priority: " +:+ "Urgent" ]> ada)
                 sampleConfig
  = buildEmailBody (<[ "priority" := "Urgent" ]> (<[ "issue" := "Login broken" ]> ada))
                   sampleConfig.
Proof.
  apply (body_lines_can_be_forged sampleConfig ada "Login broken" "Urgent");
    [discriminate | reflexivity |].
  intros f [<- | []]. split; discriminate.
Defined.

Section SubjectMore.



End SubjectMore.



(** X10.  When the input has no [name] the composer writes the text
    [undefined] in its place: the body holds the line [Name: undefined] and
    the subject substitutes [undefined] for the token.  The echo of a
    successful call then has no [name] member. *)
Theorem missing_name_is_written_as_undefined
        (config : AppConfig) (network : Network) (now : string)
        (fields : gmap string string) :
  fields !! "name" = None ->
  In "Name: undefined" (Spec.bodyLines fields config)
  /\ includes (buildEmailBody fields config) "Name: undefined" = true
  /\ (exists mid,
        Spec.FirstReplaced "{{name}}" "undefined" (emailSubjectTemplate config) mid
        /\ subject fields config
           = replace mid "{{issue}}" (toString (fields !! "issue")))
  /\ (forall result,
        completion (sendSupportEmail network fields config) = Returned result ->
        exists payload ticket,
          completion (handler config network now fields)
          = Returned {| content := [Json.stringify payload]; isError := None |}
          /\ Json.field "ticket" payload = Some ticket
          /\ Json.field "name" ticket = None).
Proof.
  intros H.
  assert (L : In "Name: undefined" (Spec.bodyLines fields config)).
  { unfold Spec.bodyLines. rewrite H. simpl. auto 6. }
  assert (L' : In "Name: undefined" (Terms.composedLines fields config)).
  { unfold Terms.composedLines. rewrite H. simpl. auto 6. }
  split; [exact L|]. split; [|split].
  - rewrite buildEmailBody_lines.
    destruct (join_mentions LF _ _ L') as (p & q & ->). apply includes_append.
  - eexists. split; [|unfold subject; rewrite H; reflexivity].
    now apply replace_FirstReplaced.
  - intros result R.
    destruct (sendSupportEmail network fields config) as [tr c] eqn:E.
    simpl in R. subst c.
    destruct (ticket_echo now fields result) as (ticket & Ht & Hn & _).
    exists (successPayload result fields now), ticket.
    rewrite (handler_returned _ _ _ _ _ _ E).
    split; [reflexivity|]. split; [exact Ht|]. now rewrite Hn, H.
Qed.

Lemma missing_name_is_written_as_undefined_witness :
  includes (buildEmailBody (delete "name" ada) sampleConfig) "Name: undefined" = true.
Proof.
  apply (missing_name_is_written_as_undefined sampleConfig (fun _ _ => None)
           EmptyString (delete "name" ada)).
  reflexivity.
Defined.

(* ===================================================================== *)
(** * Ticket Endpoint: effects of a call *)
(* ===================================================================== *)

(** X11.  A call makes one delivery attempt at most.  With a non-empty
    credential pair it submits exactly one mail and writes nothing to the
    console, whether the transport accepts or rejects it: there is no
    retry, and a failure is not turned into a console preview.  Otherwise it
    submits nothing and writes the five lines of the preview. *)
Theorem one_delivery_attempt_per_call
        (config : AppConfig) (network : Network) (now : string)
        (args : gmap string string) :
  length (List.filter Terms.isSendMail (events (handler config network now args)))
  = (if credentialsPresent config then 1 else 0)
  /\ length (List.filter Terms.isConsoleLog (events (handler config network now args)))
     = (if credentialsPresent config then 0 else 5).
Proof.
  rewrite handler_events. destruct (credentialsPresent config) eqn:C.
  - pose proof (sendSupportEmail_configured network args config C) as S.
    cbv zeta in S. rewrite S. split; reflexivity.
  - rewrite (sendSupportEmail_unconfigured network args config C).
    split; reflexivity.
Qed.

(** X12.  The result of a call is flagged as an error exactly when the
    credential pair is non-empty and the transport rejects the one mail
    submitted; in every other case the flag is absent.  A server without
    credentials therefore never reports an error. *)
Theorem error_flag_iff_transport_rejects
        (config : AppConfig) (network : Network) (now : string)
        (args : gmap string string) :
  exists r,
    completion (handler config network now args) = Returned r
    /\ (isError r = Some true \/ isError r = None)
    /\ (isError r = Some true <->
        credentialsPresent config = true
        /\ exists t m e,
            events (handler config network now args) = [SendMail t m]
            /\ network t m = Some e).
Proof.
  rewrite handler_events. destruct (credentialsPresent config) eqn:C.
  - pose proof (sendSupportEmail_configured network args config C) as S.
    cbv zeta in S. rewrite S.
    match type of S with _ = ([SendMail ?t ?m], _) =>
      destruct (network t m) as [e|] eqn:N end.
    + rewrite (handler_threw _ _ _ _ _ _ S). eexists. split; [reflexivity|].
      split; [now left|]. split; [|reflexivity].
      intros _. split; [reflexivity|]. do 3 eexists. split; [reflexivity | exact N].
    + rewrite (handler_returned _ _ _ _ _ _ S). eexists. split; [reflexivity|].
      split; [now right|]. split; [discriminate|].
      intros (_ & t & m & e & [= <- <-] & N'). congruence.
  - pose proof (sendSupportEmail_unconfigured network args config C) as S.
    rewrite (handler_returned _ _ _ _ _ _ S). eexists. split; [reflexivity|].
    split; [now right|]. split; [discriminate|]. now intros [? _].
Qed.

(* ===================================================================== *)
(** * The text of a result *)
(* ===================================================================== *)

Section JsonFacts.

Lemma noControl_append (a b : string) :
  Terms.noControl (a +:+ b) = Terms.noControl a && Terms.noControl b.
Proof.
  induction a as [|c a IH]; [reflexivity|].
  rewrite append_cons. simpl. rewrite IH. now rewrite andb_assoc.
Qed.

Lemma escape_noControl (c : ascii) (rest : string) :
  Terms.noControl rest = true -> Terms.noControl (Json.escape c rest) = true.
Proof.
  intros H. destruct c as [[] [] [] [] [] [] [] []]; vm_compute; exact H.
Qed.

Lemma quote_noControl (s : string) : Terms.noControl (Json.quote s) = true.
Proof.
  unfold Json.quote. simpl.
  induction s as [|c s IH]; [reflexivity|]. simpl. now apply escape_noControl.
Qed.

(** Induction on the values given to [JSON.stringify]. *)
Lemma JSON_nested_ind (P : JSON -> Prop) :
  (forall s, P (JString s)) ->
  (forall members, Forall (fun kv => P (snd kv)) members -> P (JObject members)) ->
  forall v, P v.
Proof.
  intros Hs Ho. fix IH 1. intros [s | members]; [apply Hs|].
  apply Ho. induction members as [|[k x] ms IHms]; constructor;
    [apply IH | exact IHms].
Qed.

Lemma stringify_noControl (v : JSON) : Terms.noControl (Json.stringify v) = true.
Proof.
  induction v as [s | members F] using JSON_nested_ind; [apply quote_noControl|].
  simpl. rewrite !noControl_append. simpl. rewrite andb_true_r.
  induction F as [|[k x] ms Hx F IHF]; [reflexivity|].
  destruct ms as [|kv ms].
  - rewrite !noControl_append, quote_noControl. simpl in Hx. now rewrite Hx.
  - rewrite !noControl_append, quote_noControl. simpl in Hx. rewrite Hx.
    simpl. exact IHF.
Qed.

End JsonFacts.

(** X13.  Whatever the customer typed and whatever the transport reported,
    the text of the result holds no control character, in particular no
    line break: line breaks, tabs and the like in a value or in an error
    message are written as escapes. *)
Theorem result_text_has_no_control_characters
        (config : AppConfig) (network : Network) (now : string)
        (args : gmap string string) :
  exists r,
    completion (handler config network now args) = Returned r
    /\ Forall (fun t => Terms.noControl t = true) (content r).
Proof.
  destruct (sendSupportEmail network args config) as [tr [result | e]] eqn:E.
  - rewrite (handler_returned _ _ _ _ _ _ E). eexists. split; [reflexivity|].
    repeat constructor. apply stringify_noControl.
  - rewrite (handler_threw _ _ _ _ _ _ E). eexists. split; [reflexivity|].
    repeat constructor. apply stringify_noControl.
Qed.

(* ===================================================================== *)
(** * The form and the server together *)
(* ===================================================================== *)

Section FormFacts.

Lemma submitArgs_fixed (name issue priority category : string)
      (customValues : gmap string string) :
  (forall k, In k Terms.fixedKeys -> customValues !! k = None) ->
  let args := Ui.submitArgs name issue priority category customValues in
  args !! "name" = Some name /\ args !! "issue" = Some issue
  /\ args !! "priority" = Some priority /\ args !! "category" = Some category.
Proof.
  intros H. cbv zeta. unfold Ui.submitArgs.
  rewrite !lookup_union_r by (apply H; simpl; auto).
  repeat split.
Qed.

End FormFacts.

(** X14.  What the form submits is what the server echoes: when no custom
    value is keyed like one of the four fixed inputs, the ticket of a
    successful call carries the name, issue, priority and category held by
    the form.  The form always sends a priority and a category, so the
    defaults of the server never apply to it. *)
Theorem form_submission_is_echoed
        (config : AppConfig) (network : Network) (now : string)
        (name issue priority category : string)
        (customValues : gmap string string) (result : Outcome) :
  (forall k, In k Terms.fixedKeys -> customValues !! k = None) ->
  completion (sendSupportEmail network
                (Ui.submitArgs name issue priority category customValues) config)
  = Returned result ->
  exists payload ticket,
    completion (handler config network now
                  (Ui.submitArgs name issue priority category customValues))
    = Returned {| content := [Json.stringify payload]; isError := None |}
    /\ Json.field "ticket" payload = Some ticket
    /\ Json.field "name" ticket = Some (JString name)
    /\ Json.field "issue" ticket = Some (JString issue)
    /\ Json.field "priority" ticket = Some (JString priority)
    /\ Json.field "category" ticket = Some (JString category).
Proof.
  intros H R.
  destruct (submitArgs_fixed name issue priority category customValues H)
    as (Hn & Hi & Hp & Hc).
  destruct (sendSupportEmail network _ config) as [tr c] eqn:E.
  simpl in R. subst c.
  destruct (ticket_echo now (Ui.submitArgs name issue priority category customValues)
              result) as (ticket & Ht & Tn & Ti & Tp & Tc & _).
  exists (successPayload result
            (Ui.submitArgs name issue priority category customValues) now), ticket.
  rewrite (handler_returned _ _ _ _ _ _ E).
  rewrite Hn in Tn. rewrite Hi in Ti. rewrite Hp in Tp. rewrite Hc in Tc.
  repeat split; assumption.
Qed.

Lemma form_submission_is_echoed_witness :
  exists payload ticket,
    completion (handler sampleConfig (fun _ _ => None) "2026-01-01T00:00:00.000Z"
                  (Ui.submitArgs "Ada" "Login broken" "Medium" "General Inquiry"
                                 (<[ "email" := EmptyString ]> ∅)))
    = Returned {| content := [Json.stringify payload]; isError := None |}
    /\ Json.field "ticket" payload = Some ticket
    /\ Json.field "name" ticket = Some (JString "Ada")
    /\ Json.field "issue" ticket = Some (JString "Login broken")
    /\ Json.field "priority" ticket = Some (JString "Medium")
    /\ Json.field "category" ticket = Some (JString "General Inquiry").
Proof.
  apply (form_submission_is_echoed sampleConfig (fun _ _ => None)
           "2026-01-01T00:00:00.000Z" "Ada" "Login broken" "Medium" "General Inquiry"
           (<[ "email" := EmptyString ]> ∅)
           {| success := true; message := recordedMessage |}).
  - intros k Hk. rewrite lookup_insert_ne; [apply lookup_empty|].
    simpl in Hk. intros <-.
    repeat (destruct Hk as [Hk | Hk]; [discriminate|]). exact Hk.
  - vm_compute. reflexivity.
Defined.

(** X15.  The defaults embedded in the client are those of the server:
    for every environment, the brand, the priorities, the categories and the
    custom fields of the default configuration are the ones the form is
    built from.  Hence an input filled in through the form, whose custom
    values are keyed by the form's custom fields, holds declared keys only. *)
Theorem client_defaults_match_server
        (env : gmap string string) (parseInt10 : string -> number) (config : AppConfig) :
  asAppConfig (defaultConfig env parseInt10) = Some config ->
  brand config = Ui.DEFAULT_BRAND
  /\ priorities config = Ui.DEFAULT_PRIORITIES
  /\ categories config = Ui.DEFAULT_CATEGORIES
  /\ customFields config = Ui.DEFAULT_CUSTOM_FIELDS
  /\ forall name issue priority category (customValues : gmap string string),
      dom customValues ⊆ list_to_set (map key Ui.DEFAULT_CUSTOM_FIELDS) ->
      dom (Ui.submitArgs name issue priority category customValues)
      ⊆ dom (buildInputSchema config).
Proof.
  unfold asAppConfig, defaultConfig. simpl. intros [= <-].
  repeat split.
  intros name issue priority category customValues H.
  rewrite dom_buildInputSchema. unfold Ui.submitArgs, Terms.declaredKeys.
  rewrite dom_union_L, !dom_insert_L, dom_empty_L. simpl in *.
  intros k Hk. apply elem_of_union in Hk as [Hk | Hk].
  - apply H in Hk. rewrite !elem_of_union in *. tauto.
  - rewrite !elem_of_union in *. tauto.
Qed.

Lemma client_defaults_match_server_witness :
  priorities sampleConfig = Ui.DEFAULT_PRIORITIES
  /\ customFields sampleConfig = Ui.DEFAULT_CUSTOM_FIELDS.
Proof.
  destruct (client_defaults_match_server ∅ (fun _ => Num 587) sampleConfig)
    as (_ & P & _ & F & _); [vm_compute; reflexivity|].
  split; [exact P | exact F].
Defined.

(* ===================================================================== *)
(** * Server assembly *)
(* ===================================================================== *)

(** X16.  For an override that writes no [undefined], [createServer]
    yields a server named after the brand, the override's name when it
    gives one and [Customer Support] otherwise, with the tool
    [customer_support] titled by the same name, advertising the shape built
    from the resolved configuration, pointing at the URI under which the UI
    resource is registered, and calling the handler of that configuration.
    Calling [createServer] without an argument is calling it with the empty
    override. *)
Theorem createServer_follows_override
        (filename dirname : string) (pathJoin : string -> string -> string)
        (RESOURCE_MIME_TYPE : string)
        (env : gmap string string) (parseInt10 : string -> number)
        (overrides : Partial.AppConfig) :
  Terms.definedOverride overrides = true ->
  exists server config,
    createServer filename dirname pathJoin RESOURCE_MIME_TYPE env parseInt10
                 (Some overrides) = Some server
    /\ asAppConfig (createConfig env parseInt10 overrides) = Some config
    /\ Server.serverName server = Terms.brandNameOf overrides +:+ " MCP Server"
    /\ Server.toolName server = "customer_support"
    /\ Server.title (Server.toolConfig server) = Terms.brandNameOf overrides
    /\ Server.inputSchema (Server.toolConfig server) = buildInputSchema config
    /\ Server.uiResourceUri (Server.toolConfig server) = Server.resourceUri server
    /\ (forall network now args,
          Server.toolCallback server network now args
          = handler config network now args)
    /\ createServer filename dirname pathJoin RESOURCE_MIME_TYPE env parseInt10 None
       = createServer filename dirname pathJoin RESOURCE_MIME_TYPE env parseInt10
                      (Some Partial.empty).
Proof.
  intros H. destruct (createConfig_typed env parseInt10 overrides H) as (config & E & N).
  eexists. exists config. unfold createServer. rewrite E. simpl.
  split; [reflexivity|]. split; [reflexivity|].
  simpl. rewrite N. repeat split.
Qed.

Lemma createServer_follows_override_witness :
  exists server,
    createServer "server.ts" "/app" (fun a b => a +:+ "/" +:+ b) "text/html" ∅
                 (fun _ => Num 587) (Some (Spec.onlyBrandName "Acme Support"))
    = Some server
    /\ Server.serverName server = "Acme Support MCP Server".
Proof.
  destruct (createServer_follows_override
              "server.ts" "/app" (fun a b => a +:+ "/" +:+ b) "text/html" ∅
              (fun _ => Num 587) (Spec.onlyBrandName "Acme Support") eq_refl)
    as (server & config & E & _ & N & _).
  exists server. split; [exact E | exact N].
Defined.

(* ===================================================================== *)
(** * The subject for a template that uses each token once *)
(* ===================================================================== *)

Section OrderedTemplate.

Local Abbreviation len := String.length.

Lemma braceFree_append (a b : string) :
  Terms.braceFree (a +:+ b) = Terms.braceFree a && Terms.braceFree b.
Proof.
  induction a as [|c a IH]; [reflexivity|].
  rewrite append_cons. simpl. rewrite IH. now rewrite andb_assoc.
Qed.

(** A token that starts with a brace is not found inside a brace-free
    prefix: its leftmost occurrence in [p ++ s] is the one in [s]. *)
Lemma indexOfFrom_braceFree_prefix (tok p s : string) (k : nat) :
  Terms.braceFree p = true ->
  indexOfFrom (String "{" tok) (p +:+ s) k
  = indexOfFrom (String "{" tok) s (k + len p).
Proof.
  revert k. induction p as [|c p IH]; intros k H.
  - rewrite append_nil. simpl. now rewrite Nat.add_0_r.
  - simpl in H. apply andb_prop in H as [Hc Hp]. apply negb_true_iff in Hc.
    rewrite append_cons.
    change (indexOfFrom (String "{" tok) (String c (p +:+ s)) k)
      with (if startsWith (String "{" tok) (String c (p +:+ s)) then Some k
            else indexOfFrom (String "{" tok) (p +:+ s) (S k)).
    assert (E : startsWith (String "{" tok) (String c (p +:+ s)) = false).
    { change (startsWith (String "{" tok) (String c (p +:+ s)))
        with (if Ascii.eqb "{" c then startsWith tok (p +:+ s) else false).
      destruct (Ascii.eqb "{" c) eqn:Ec; [|reflexivity].
      apply Ascii.eqb_eq in Ec. subst c. discriminate Hc. }
    rewrite E, IH by exact Hp. simpl. f_equal. lia.
Qed.

Lemma indexOfFrom_at_token (tok q : string) (k : nat) :
  indexOfFrom tok (tok +:+ q) k = Some k.
Proof.
  destruct tok as [|c tok]; [destruct q; reflexivity|].
  rewrite append_cons.
  change (indexOfFrom (String c tok) (String c (tok +:+ q)) k)
    with (if startsWith (String c tok) (String c (tok +:+ q)) then Some k
          else indexOfFrom (String c tok) (tok +:+ q) (S k)).
  rewrite <- append_cons. now rewrite startsWith_append.
Qed.

Lemma replace_after_braceFree_prefix (tok p q v : string) :
  Terms.braceFree p = true -> Spec.dollarFree v = true ->
  replace (p +:+ String "{" tok +:+ q) (String "{" tok) v = p +:+ v +:+ q.
Proof.
  intros Hp Hv. unfold replace, indexOf.
  rewrite (indexOfFrom_braceFree_prefix _ _ _ _ Hp), indexOfFrom_at_token.
  change (0 + len p) with (len p). cbv beta iota zeta.
  rewrite take_append, drop_append_plus, drop_append.
  now rewrite (getSubstitution_dollarFree _ _ _ _ Hv).
Qed.

End OrderedTemplate.

(** X17.  For a template that uses each token once, the name before the
    issue, with no other opening brace before the issue token, the subject
    is the template with the two values in place of the tokens, provided
    the name holds no opening brace and neither value a dollar sign.  The
    default template is of this kind. *)
Theorem subject_of_ordered_template
        (fields : gmap string string) (config : AppConfig) (a b c : string) :
  emailSubjectTemplate config = a +:+ "{{name}}" +:+ b +:+ "{{issue}}" +:+ c ->
  Terms.braceFree a = true -> Terms.braceFree b = true ->
  Terms.braceFree (toString (fields !! "name")) = true ->
  Spec.dollarFree (toString (fields !! "name")) = true ->
  Spec.dollarFree (toString (fields !! "issue")) = true ->
  subject fields config
  = a +:+ toString (fields !! "name") +:+ b +:+ toString (fields !! "issue") +:+ c.
Proof.
  intros T Ha Hb Hn Dn Di. unfold subject. rewrite T.
  rewrite (replace_after_braceFree_prefix "{name}}" a _ _ Ha Dn).
  rewrite <- (append_assoc (toString (fields !! "name")) b),
          <- (append_assoc a).
  rewrite (replace_after_braceFree_prefix "{issue}}" _ c _);
    [ now rewrite !append_assoc
    | rewrite !braceFree_append, Ha, Hn, Hb; reflexivity
    | exact Di ].
Qed.

Lemma subject_of_ordered_template_witness :
  subject ada sampleConfig = "Support Request from Ada: Login broken".
Proof.
  apply (subject_of_ordered_template ada sampleConfig
           "Support Request from " ": " EmptyString); reflexivity.
Defined.
